(** * foodgram-st: the request handlers of [backend/api/views.py]

    A shallow embedding of the computations behind the recipe API's
    handlers: the base-62 short-link codec used by
    [RecipeViewSet.generate_share_link], the shopping-cart aggregation and
    its renderers ([RecipeViewSet.export_shopping_cart]), the unfollow
    branch of [UserViewSet.manage_follow] and the ingredient listing
    ([IngredientViewSet]).

    Python [str] values are byte strings (UTF-8), Python integers are [N]
    or [Z], database tables are lists of records in the order the database
    scans them, and a handler that changes a table returns the new table
    next to its response. *)

From Stdlib Require Import List String Ascii NArith ZArith Lia Bool.
From Stdlib Require Import Permutation Sorted DecimalString.
Import ListNotations.

Local Open Scope string_scope.

(** ** Base-62 identifier codec *)

Module Base62.

(** [string.digits + string.ascii_letters]: digits, lowercase, uppercase. *)
Definition alphabet : string :=
  "0123456789abcdefghijklmnopqrstuvwxyzABCDEFGHIJKLMNOPQRSTUVWXYZ".

Definition base : N := 62.

(** The zero-symbol, [alphabet[0]]. *)
Definition zero_symbol : ascii := "0"%char.

(** [alphabet[d]]. *)
Definition digit_char (d : N) : ascii :=
  match String.get (N.to_nat d) alphabet with
  | Some c => c
  | None => zero_symbol
  end.

Fixpoint index_from (i : N) (c : ascii) (s : string) : option N :=
  match s with
  | EmptyString => None
  | String c' s' => if Ascii.eqb c c' then Some i else index_from (N.succ i) c s'
  end.

(** [alphabet.index(c)], [None] for a character outside the alphabet. *)
Definition char_digit (c : ascii) : option N := index_from 0 c alphabet.

(** Modelled from the spec: [Base62Field.to_base62] (module [api.fields]) is
    not part of the sources at hand; the spec describes it as standard
    positional base-62 encoding of a non-negative integer over the alphabet
    above, most significant digit first, with [encode(0)] the single first
    symbol.  The loop peels digits off the low end of [num] until it is
    zero; [fuel] bounds the number of rounds and the binary length of [num]
    is always enough (lemma [to_base62_loop_fuel] below). *)
Fixpoint to_base62_loop (fuel : nat) (num : N) (result : list ascii) : list ascii :=
  match fuel with
  | O => result
  | S fuel' =>
      if (num =? 0)%N then result
      else to_base62_loop fuel' (num / base) (digit_char (num mod base) :: result)
  end.

Definition to_base62 (num : N) : string :=
  if (num =? 0)%N then String zero_symbol EmptyString
  else string_of_list_ascii (to_base62_loop (N.size_nat num) num []).

(** Modelled from the spec: the inverse used by the short-link route,
    [decode(token) -> id]; a character outside the alphabet is the
    [InvalidToken] error, here [None]. *)
Fixpoint from_base62_acc (token : list ascii) (acc : N) : option N :=
  match token with
  | [] => Some acc
  | c :: rest =>
      match char_digit c with
      | Some d => from_base62_acc rest (acc * base + d)
      | None => None
      end
  end.

Definition from_base62 (token : string) : option N :=
  from_base62_acc (list_ascii_of_string token) 0.

(** Strings over the alphabet with no leading zero-symbol, the zero value
    ["0"] itself apart. *)
Definition in_alphabet (c : ascii) : bool :=
  match char_digit c with Some _ => true | None => false end.

Definition canonical (token : string) : bool :=
  match list_ascii_of_string token with
  | [] => false
  | [c] => in_alphabet c
  | c :: rest => negb (Ascii.eqb c zero_symbol) && forallb in_alphabet (c :: rest)
  end.

End Base62.

(** [RecipeViewSet.generate_share_link]: the recipe is looked up by primary
    key ([get_object], 404 when absent) and its id is encoded into the path
    [/s/<code>] resolved against the request's base URI. *)
Inductive share_response :=
| ShareOk (short_link : string)
| ShareNotFound.

Definition generate_share_link (base_uri : string) (recipe_ids : list N) (pk : N)
  : share_response :=
  if existsb (N.eqb pk) recipe_ids
  then ShareOk (base_uri ++ "/s/" ++ Base62.to_base62 pk)
  else ShareNotFound.

(** ** Strings and query parameters *)

Definition LF : string := String "010"%char EmptyString.
Definition CR : string := String "013"%char EmptyString.
Definition DQUOTE : string := String "034"%char EmptyString.

(** [str(n)] for a Python integer. *)
Definition str (n : Z) : string := NilZero.string_of_int (Z.to_int n).

Definition is_upper (c : ascii) : bool :=
  let n := nat_of_ascii c in (65 <=? n)%nat && (n <=? 90)%nat.

Definition is_lower (c : ascii) : bool :=
  let n := nat_of_ascii c in (97 <=? n)%nat && (n <=? 122)%nat.

Definition lower_char (c : ascii) : ascii :=
  if is_upper c then ascii_of_nat (nat_of_ascii c + 32) else c.

Definition upper_char (c : ascii) : ascii :=
  if is_lower c then ascii_of_nat (nat_of_ascii c - 32) else c.

(** [s.lower()].  Python lowers by Unicode code point; on the bytes of a
    UTF-8 string that is the map below for every ASCII character, and a
    character outside ASCII stays outside ASCII or (KELVIN SIGN only) turns
    into the letter k, so comparing the result with an ASCII word without k
    gives the same answer as in Python. *)
Fixpoint lower (s : string) : string :=
  match s with
  | EmptyString => EmptyString
  | String c s' => String (lower_char c) (lower s')
  end.

(** ASCII upper-casing of a whole string. *)
Fixpoint upper (s : string) : string :=
  match s with
  | EmptyString => EmptyString
  | String c s' => String (upper_char c) (upper s')
  end.

(** [needle in s]. *)
Fixpoint contains (needle s : string) : bool :=
  String.prefix needle s ||
  match s with
  | EmptyString => false
  | String _ s' => contains needle s'
  end.

(** [request.query_params]: the pairs of the query string in the order
    they were sent. *)
Definition QueryDict := list (string * string).

(** [QueryDict.get(key)]: the last value sent for [key], if any. *)
Fixpoint qd_get (key : string) (params : QueryDict) : option string :=
  match params with
  | [] => None
  | (k, v) :: rest =>
      match qd_get key rest with
      | Some v' => Some v'
      | None => if String.eqb k key then Some v else None
      end
  end.

(** [QueryDict.get(key, default)]. *)
Definition qd_get_default (key default : string) (params : QueryDict) : string :=
  match qd_get key params with
  | Some v => v
  | None => default
  end.

(** ** Tables *)

Module Models.

(** [recipes.models.Ingredient], the two columns the views read. *)
Record Ingredient := {
  name : string;
  measurement_unit : string
}.

(** [recipes.models.RecipeIngredient]: a recipe, one of its ingredients
    (the foreign key resolved) and the amount, an integer column. *)
Record RecipeIngredient := {
  recipe : N;
  ingredient : Ingredient;
  amount : Z
}.

(** [recipes.models.ShoppingCart]: a user keeps a recipe in the cart. *)
Record ShoppingCart := {
  cart_user : N;
  cart_recipe : N
}.

(** [users.models.Follow]: [follower] is the model's [user] column. *)
Record Follow := {
  pk : N;
  follower : N;
  following : N
}.

Definition ingredient_eqb (a b : Ingredient) : bool :=
  String.eqb (name a) (name b) && String.eqb (measurement_unit a) (measurement_unit b).

End Models.

(** ** HTTP responses *)

(** One [FPDF.cell(w, h, txt=..., ln=True, align=...)] call. *)
Record PdfCell := {
  cell_w : Z;
  cell_h : Z;
  cell_txt : string;
  cell_centered : bool
}.

(** What the handler asks of the [FPDF] object: one page, one font (a
    core font, single-byte) and the cells in call order.  [Pdf] below
    stands for the bytes [pdf.output(dest='S').encode('latin1')] makes of
    them, which exist only when every cell text can be encoded. *)
Record PdfDocument := {
  pdf_font : string;
  pdf_font_size : Z;
  pdf_cells : list PdfCell
}.

Inductive Body :=
| NoBody
| Text (content : string)
| Detail (message : string)
| Pdf (document : PdfDocument)
| Unhandled.

Record HttpResponse := {
  status : N;
  content_type : option string;
  content_disposition : option string;
  body : Body
}.

Definition HTTP_200_OK : N := 200.
Definition HTTP_204_NO_CONTENT : N := 204.
Definition HTTP_400_BAD_REQUEST : N := 400.
Definition HTTP_404_NOT_FOUND : N := 404.
Definition HTTP_500_INTERNAL_SERVER_ERROR : N := 500.

(** [HttpResponse(content, content_type=...)] with its
    [Content-Disposition] header set. *)
Definition attachment (content : Body) (mime filename : string) : HttpResponse :=
  {| status := HTTP_200_OK;
     content_type := Some mime;
     content_disposition :=
       Some ("attachment; filename=" ++ DQUOTE ++ filename ++ DQUOTE);
     body := content |}.

(** [Response({"detail": message}, status=code)]. *)
Definition detail_response (code : N) (message : string) : HttpResponse :=
  {| status := code; content_type := None; content_disposition := None;
     body := Detail message |}.

(** [Response(status=code)]. *)
Definition empty_response (code : N) : HttpResponse :=
  {| status := code; content_type := None; content_disposition := None;
     body := NoBody |}.

(** An exception that leaves the handler: nothing of the handler's is
    sent and the framework answers 500. *)
Definition server_error : HttpResponse :=
  {| status := HTTP_500_INTERNAL_SERVER_ERROR; content_type := None;
     content_disposition := None; body := Unhandled |}.

(** Whether [s.encode('latin1')] succeeds: every character of [s] has a
    code point below 256, which in UTF-8 is a byte below 128 or a pair of
    bytes led by 194 or 195. *)
Fixpoint latin1_encodable (s : string) : bool :=
  match s with
  | EmptyString => true
  | String c rest =>
      if (nat_of_ascii c <? 128)%nat then latin1_encodable rest
      else if (nat_of_ascii c =? 194)%nat || (nat_of_ascii c =? 195)%nat then
        match rest with
        | String _ rest' => latin1_encodable rest'
        | EmptyString => false
        end
      else false
  end.

(** ** The [csv] writer *)

(** [csv.writer(output)] with the default [excel] dialect: comma, double
    quote, doubled inner quotes, CR LF, minimal quoting.  A field is put in
    quotes when it holds the delimiter, the quote character or a character
    of the line terminator. *)
Module Csv.

Definition delimiter : ascii := ","%char.
Definition quotechar : ascii := "034"%char.
Definition lineterminator : string := CR ++ LF.

Definition needs_quotes (c : ascii) : bool :=
  Ascii.eqb c delimiter || Ascii.eqb c quotechar
  || Ascii.eqb c "013"%char || Ascii.eqb c "010"%char.

(** The scan over one field: the characters go to the record, a quote
    character preceded by a second one, and [quoted] is raised at the first
    character that calls for quotes. *)
Fixpoint join_append_data (field : string) (quoted : bool) : string * bool :=
  match field with
  | EmptyString => (EmptyString, quoted)
  | String c rest =>
      let (data, quoted') := join_append_data rest (quoted || needs_quotes c) in
      (if Ascii.eqb c quotechar then String quotechar (String c data)
       else String c data,
       quoted')
  end.

(** The text of one field as it lands in the record. *)
Definition field_text (field : string) : string :=
  let (data, quoted) := join_append_data field false in
  if quoted then String quotechar (data ++ String quotechar EmptyString) else data.

(** The record under construction and the number of fields joined so far. *)
Record Writer := {
  rec : string;
  num_fields : nat
}.

Definition join_reset : Writer := {| rec := EmptyString; num_fields := 0 |}.

Definition join_append (w : Writer) (field : string) : Writer :=
  {| rec := rec w
            ++ (match num_fields w with O => EmptyString | S _ => String delimiter EmptyString end)
            ++ field_text field;
     num_fields := S (num_fields w) |}.

(** [writer.writerow(row)] on a [StringIO] holding [output]: the joined
    record and the line terminator are appended.  A record that stayed
    empty although it has a field (one empty field) is written as a pair of
    quotes. *)
Definition writerow (output : string) (row : list string) : string :=
  let w := fold_left join_append row join_reset in
  let record :=
    match num_fields w, rec w with
    | S _, EmptyString => String quotechar (String quotechar EmptyString)
    | _, r => r
    end in
  output ++ record ++ lineterminator.

(** Standard tabular-text escaping, as the format's description words it:
    the field between double quotes, every double quote inside it written
    twice. *)
Fixpoint double_quotes (field : string) : string :=
  match field with
  | EmptyString => EmptyString
  | String c rest =>
      if Ascii.eqb c quotechar then String quotechar (String quotechar (double_quotes rest))
      else String c (double_quotes rest)
  end.

Definition quoted_field (field : string) : string :=
  DQUOTE ++ double_quotes field ++ DQUOTE.

(** The field holds none of the four characters that call for quotes. *)
Fixpoint plain (field : string) : bool :=
  match field with
  | EmptyString => true
  | String c rest => negb (needs_quotes c) && plain rest
  end.

End Csv.

(** ** The shopping cart export *)

(** One entry of [ingredients_list]. *)
Module Item.
Record t := {
  name : string;
  amount : Z;
  measurement_unit : string
}.
End Item.

Section ShoppingCartExport.
Import Models.

(** A row of [.values('ingredient__name', 'ingredient__measurement_unit')
    .annotate(total_amount=Sum('amount'))]. *)
Record ValuesRow := {
  ingredient__name : string;
  ingredient__measurement_unit : string;
  total_amount : Z
}.

Definition row_key (r : ValuesRow) : Ingredient :=
  {| name := ingredient__name r; measurement_unit := ingredient__measurement_unit r |}.

(** [.filter(recipe__shopping_carts__user=user)]: the inner join of the
    recipe ingredient lines with the cart rows of their recipe, restricted
    to the user's cart rows.  A line comes once for every cart row it joins
    with. *)
Definition in_cart_of (user : N) (line : RecipeIngredient) (c : ShoppingCart) : bool :=
  (cart_user c =? user)%N && (cart_recipe c =? recipe line)%N.

Definition filter_user_cart (user : N) (carts : list ShoppingCart)
    (lines : list RecipeIngredient) : list RecipeIngredient :=
  flat_map (fun line => map (fun _ => line) (filter (in_cart_of user line) carts)) lines.

(** [GROUP BY name, measurement_unit] with [SUM(amount)]: a line joins the
    group of its (name, unit) pair or opens a new one. *)
Fixpoint add_to_group (ing : Ingredient) (amt : Z) (groups : list ValuesRow)
  : list ValuesRow :=
  match groups with
  | [] => [{| ingredient__name := name ing;
              ingredient__measurement_unit := measurement_unit ing;
              total_amount := amt |}]
  | g :: rest =>
      if ingredient_eqb (row_key g) ing
      then {| ingredient__name := ingredient__name g;
              ingredient__measurement_unit := ingredient__measurement_unit g;
              total_amount := total_amount g + amt |} :: rest
      else g :: add_to_group ing amt rest
  end.

Definition values_annotate_sum (lines : list RecipeIngredient) : list ValuesRow :=
  fold_left (fun groups line => add_to_group (ingredient line) (amount line) groups)
            lines [].

(** [.order_by('ingredient__name')]: ascending by name alone.  SQL leaves
    the place of rows with equal names to the database engine, so the
    engine's ordering step is a parameter of the query; what
    [ORDER BY name] promises of it is [OrderByName] below. *)
Variable order_by : list ValuesRow -> list ValuesRow.

(** The queryset [ingredients] of [export_shopping_cart]. *)
Definition ingredients (user : N) (carts : list ShoppingCart)
    (lines : list RecipeIngredient) : list ValuesRow :=
  order_by (values_annotate_sum (filter_user_cart user carts lines)).

(** One entry of the list comprehension that builds [ingredients_list]. *)
Definition to_item (item : ValuesRow) : Item.t :=
  {| Item.name := ingredient__name item;
     Item.amount := total_amount item;
     Item.measurement_unit := ingredient__measurement_unit item |}.

Definition ingredients_list (user : N) (carts : list ShoppingCart)
    (lines : list RecipeIngredient) : list Item.t :=
  map to_item (ingredients user carts lines).

Definition item_line (item : Item.t) : string :=
  Item.name item ++ " (" ++ Item.measurement_unit item ++ ") — " ++ str (Item.amount item).

Definition _generate_text_response (items : list Item.t) : HttpResponse :=
  attachment (Text (String.concat LF (map item_line items)))
             "text/plain" "shopping_list.txt".

Definition csv_header : list string :=
  ["Ингредиент"; "Количество"; "Единица измерения"].

Definition csv_row (item : Item.t) : list string :=
  [Item.name item; str (Item.amount item); Item.measurement_unit item].

Definition _generate_csv_response (items : list Item.t) : HttpResponse :=
  let output := Csv.writerow EmptyString csv_header in
  let output := fold_left (fun out item => Csv.writerow out (csv_row item)) items output in
  attachment (Text output) "text/csv" "shopping_list.csv".

(** The texts of the cells reach the output as they are, and the document
    is encoded to latin-1 with no [try] around it: a text that cannot be
    encoded raises.  The title is Cyrillic and every entry line holds an
    em dash. *)
Definition _generate_pdf_response (items : list Item.t) : HttpResponse :=
  let title := {| cell_w := 200; cell_h := 10; cell_txt := "Список покупок";
                  cell_centered := true |} in
  let cells := map (fun item => {| cell_w := 200; cell_h := 10;
                                   cell_txt := item_line item;
                                   cell_centered := false |}) items in
  if forallb (fun cell => latin1_encodable (cell_txt cell)) (title :: cells)
  then attachment (Pdf {| pdf_font := "Arial"; pdf_font_size := 12;
                          pdf_cells := title :: cells |})
                  "application/pdf" "shopping_list.pdf"
  else server_error.

Definition export_shopping_cart (user : N) (carts : list ShoppingCart)
    (lines : list RecipeIngredient) (query_params : QueryDict) : HttpResponse :=
  let items := ingredients_list user carts lines in
  let file_format := lower (qd_get_default "format" "txt" query_params) in
  if String.eqb file_format "txt" then _generate_text_response items
  else if String.eqb file_format "csv" then _generate_csv_response items
  else if String.eqb file_format "pdf" then _generate_pdf_response items
  else detail_response HTTP_400_BAD_REQUEST "Неподдерживаемый формат файла".

End ShoppingCartExport.

(** ** Unfollowing *)

Section ManageFollow.
Import Models.

(** The [DELETE] branch of [UserViewSet.manage_follow].  [users] holds the
    primary keys of the user table, [follows] the follow table in the order
    [.first()] reads it, [user] is the requesting user and [id] the key
    from the URL.  The response comes with the follow table as the handler
    leaves it. *)
Definition is_follow (user id : N) (f : Follow) : bool :=
  (follower f =? user)%N && (following f =? id)%N.

Definition manage_follow_delete (users : list N) (follows : list Follow)
    (user id : N) : HttpResponse * list Follow :=
  if existsb (N.eqb id) users then
    match find (is_follow user id) follows with
    | None =>
        (detail_response HTTP_400_BAD_REQUEST "Вы не подписаны на этого пользователя.",
         follows)
    | Some follow_instance =>
        (empty_response HTTP_204_NO_CONTENT,
         filter (fun f => negb (pk f =? pk follow_instance)%N) follows)
    end
  else
    (detail_response HTTP_404_NOT_FOUND "Not found.", follows).

End ManageFollow.

(** ** Listing ingredients *)

Section IngredientList.
Import Models.

(** The database's case folding for [istartswith] and [icontains]
    ([UPPER] on PostgreSQL, ASCII-only folding inside [LIKE] on SQLite). *)
Variable fold_case : string -> string.

(** [name__istartswith=value]. *)
Definition istartswith (value : string) (i : Ingredient) : bool :=
  String.prefix (fold_case value) (fold_case (name i)).

(** [name__icontains=term]. *)
Definition icontains (term : string) (i : Ingredient) : bool :=
  contains (fold_case term) (fold_case (name i)).

(** [IngredientViewSet.get_queryset]; an empty string is falsy. *)
Definition get_queryset (query_params : QueryDict) (table : list Ingredient)
  : list Ingredient :=
  match qd_get "name" query_params with
  | Some (String c rest) => filter (istartswith (String c rest)) table
  | _ => table
  end.

(** [str.isspace] on the character that starts [s], as the number of its
    bytes ([0] when [s] starts with no white space): the ASCII controls 9
    to 13 and 28 to 31, the space, and in UTF-8 the characters U+0085,
    U+00A0, U+1680, U+2000 to U+200A, U+2028, U+2029, U+202F, U+205F and
    U+3000. *)
Definition space_width (s : string) : nat :=
  match s with
  | EmptyString => 0
  | String a rest =>
      let x := nat_of_ascii a in
      if ((9 <=? x) && (x <=? 13)) || ((28 <=? x) && (x <=? 32)) then 1
      else
        match rest with
        | EmptyString => 0
        | String b rest' =>
            let y := nat_of_ascii b in
            if (x =? 194) && ((y =? 133) || (y =? 160)) then 2
            else
              match rest' with
              | EmptyString => 0
              | String c _ =>
                  let z := nat_of_ascii c in
                  if ((x =? 225) && (y =? 154) && (z =? 128))
                     || ((x =? 226) && (y =? 128)
                         && (((128 <=? z) && (z <=? 138))
                             || (z =? 168) || (z =? 169) || (z =? 175)))
                     || ((x =? 226) && (y =? 129) && (z =? 159))
                     || ((x =? 227) && (y =? 128) && (z =? 128))
                  then 3 else 0
              end
        end
  end%nat.

Definition flush_term (current : string) : list string :=
  match current with EmptyString => [] | _ => [current] end.

(** [params.replace('\x00', '').replace(',', ' ').split()]: NUL characters
    are dropped, and the rest is cut at commas and at white space, empty
    pieces left out.  [skip] counts the bytes of a white-space character
    that are still to pass. *)
Fixpoint split_terms (s : string) (skip : nat) (current : string) : list string :=
  match s with
  | EmptyString => flush_term current
  | String c rest =>
      match skip with
      | S k => split_terms rest k current
      | O =>
          if Ascii.eqb c "000"%char then split_terms rest 0 current
          else if Ascii.eqb c ","%char then
            (flush_term current ++ split_terms rest 0 EmptyString)%list
          else
            match space_width s with
            | O => split_terms rest 0 (current ++ String c EmptyString)
            | S k => (flush_term current ++ split_terms rest k EmptyString)%list
            end
      end
  end.

(** [SearchFilter.get_search_terms] as Django REST framework has it up to
    3.14 (from 3.15 on a phrase between quotes stays one term). *)
Definition get_search_terms (query_params : QueryDict) : list string :=
  split_terms (qd_get_default "search" "" query_params) 0 EmptyString.

(** [SearchFilter.filter_queryset] with [search_fields = ['name']]: every
    term has to occur in the name; without terms nothing is filtered. *)
Definition search_filter (query_params : QueryDict) (queryset : list Ingredient)
  : list Ingredient :=
  filter (fun i => forallb (fun term => icontains term i) (get_search_terms query_params))
         queryset.

(** The [list] action: [filter_queryset(get_queryset())], unpaginated. *)
Definition list_ingredients (query_params : QueryDict) (table : list Ingredient)
  : list Ingredient :=
  search_filter query_params (get_queryset query_params table).

End IngredientList.

(** ** Quantities the claims speak of *)

Section Quantities.
Import Models.

Definition sumZ (l : list Z) : Z := fold_right Z.add 0%Z l.

(** The summed amount of the lines of (name, unit) pair [k] among [lines]. *)
Definition group_total (k : Ingredient) (lines : list RecipeIngredient) : Z :=
  sumZ (map amount (filter (fun l => ingredient_eqb (ingredient l) k) lines)).

(** The quantity of [k] that recipe [r] asks for. *)
Definition recipe_quantity (lines : list RecipeIngredient) (k : Ingredient) (r : N) : Z :=
  group_total k (filter (fun l => (recipe l =? r)%N) lines).

(** The recipes in the user's cart, one per cart row. *)
Definition cart_recipes (user : N) (carts : list ShoppingCart) : list N :=
  map cart_recipe (filter (fun c => (cart_user c =? user)%N) carts).

Definition item_key (item : Item.t) : Ingredient :=
  {| name := Item.name item; measurement_unit := Item.measurement_unit item |}.

(** Ascending by name. *)
Definition name_le (a b : Item.t) : Prop :=
  String.leb (Item.name a) (Item.name b) = true.

(** Ascending by name, equal names ascending by unit. *)
Definition name_unit_le (a b : Item.t) : Prop :=
  String.ltb (Item.name a) (Item.name b) = true
  \/ (Item.name a = Item.name b
      /\ String.leb (Item.measurement_unit a) (Item.measurement_unit b) = true).

(** The total recorded for pair [k] in a list of groups, if [k] has one. *)
Definition total_of (k : Ingredient) (groups : list ValuesRow) : option Z :=
  option_map total_amount (find (fun g => ingredient_eqb (row_key g) k) groups).

(** What one line adds to the quantity recipe [r] asks of pair [k]. *)
Definition line_share (k : Ingredient) (l : RecipeIngredient) (r : N) : Z :=
  if (recipe l =? r)%N
  then (if ingredient_eqb (ingredient l) k then amount l else 0)%Z
  else 0%Z.

(** Ascending by name, on the rows of the queryset. *)
Definition row_name_le (a b : ValuesRow) : Prop :=
  String.leb (ingredient__name a) (ingredient__name b) = true.

(** What [ORDER BY name] promises of the engine's ordering step: the same
    rows, ascending by name (names compared byte by byte). *)
Record OrderByName (order_by : list ValuesRow -> list ValuesRow) : Prop := {
  order_by_permutation : forall rows, Permutation (order_by rows) rows;
  order_by_sorted : forall rows, Sorted row_name_le (order_by rows)
}.

(** Sorting by insertion under a comparison [leb]; a row goes in front of
    the first row it is not above. *)
Fixpoint insert_row (leb : ValuesRow -> ValuesRow -> bool) (r : ValuesRow)
    (sorted : list ValuesRow) : list ValuesRow :=
  match sorted with
  | [] => [r]
  | h :: t => if leb r h then r :: h :: t else h :: insert_row leb r t
  end.

Definition order_rows (leb : ValuesRow -> ValuesRow -> bool) (rows : list ValuesRow)
  : list ValuesRow :=
  fold_right (insert_row leb) [] rows.

Definition row_name_leb (a b : ValuesRow) : bool :=
  String.leb (ingredient__name a) (ingredient__name b).

Definition row_name_unit_leb (a b : ValuesRow) : bool :=
  String.ltb (ingredient__name a) (ingredient__name b)
  || (String.eqb (ingredient__name a) (ingredient__name b)
      && String.leb (ingredient__measurement_unit a) (ingredient__measurement_unit b)).

(** Two engines that keep the promise: one compares names only and leaves
    rows of equal names as it met their groups, the other sorts on name
    and unit, as an engine does that groups by sorting on both columns. *)
Definition order_by_name : list ValuesRow -> list ValuesRow := order_rows row_name_leb.

Definition order_by_name_unit : list ValuesRow -> list ValuesRow :=
  order_rows row_name_unit_leb.

(** [s] is [word] up to the case of its letters. *)
Fixpoint casing_of (s word : string) : bool :=
  match s, word with
  | EmptyString, EmptyString => true
  | String a s', String b word' =>
      (Ascii.eqb a b || (is_lower b && Ascii.eqb a (upper_char b))) && casing_of s' word'
  | _, _ => false
  end.

End Quantities.

(** ** The tabular text the format's description asks for *)

(** A field with a comma, a quote or a line break goes between quotes with
    its quotes doubled, any other field goes as it is. *)
Definition tabular_field (field : string) : string :=
  if contains "," field || contains DQUOTE field
     || contains CR field || contains LF field
  then Csv.quoted_field field
  else field.

Definition tabular_row (item : Item.t) : string :=
  tabular_field (Item.name item) ++ "," ++ str (Item.amount item) ++ ","
  ++ tabular_field (Item.measurement_unit item) ++ CR ++ LF.

Definition tabular_text (items : list Item.t) : string :=
  "Ингредиент,Количество,Единица измерения" ++ CR ++ LF
  ++ String.concat "" (map tabular_row items).

(** ** Sample data *)

Module Examples.
Import Models.

Definition salt_g : Ingredient := {| name := "Salt"; measurement_unit := "g" |}.
Definition salt_kg : Ingredient := {| name := "Salt"; measurement_unit := "kg" |}.
Definition pepper : Ingredient := {| name := "Pepper, black"; measurement_unit := "g" |}.

(** User 5 keeps recipes 1 and 2 in the cart, user 6 keeps recipe 3. *)
Definition carts : list ShoppingCart :=
  [ {| cart_user := 5; cart_recipe := 1 |};
    {| cart_user := 5; cart_recipe := 2 |};
    {| cart_user := 6; cart_recipe := 3 |} ].

(** Recipes 1 and 2 ask for 2 and 3 grams of salt. *)
Definition salt_lines : list RecipeIngredient :=
  [ {| recipe := 1; ingredient := salt_g; amount := 2 |};
    {| recipe := 2; ingredient := salt_g; amount := 3 |};
    {| recipe := 3; ingredient := salt_g; amount := 40 |} ].

Definition salt_item : Item.t :=
  {| Item.name := "Salt"; Item.amount := 5; Item.measurement_unit := "g" |}.

(** Recipe 1 asks for salt by the kilogram and by the gram. *)
Definition two_unit_lines : list RecipeIngredient :=
  [ {| recipe := 1; ingredient := salt_kg; amount := 1 |};
    {| recipe := 1; ingredient := salt_g; amount := 500 |} ].

Definition follows : list Follow :=
  [ {| pk := 1; follower := 5; following := 6 |};
    {| pk := 2; follower := 5; following := 7 |};
    {| pk := 3; follower := 6; following := 7 |} ].

Definition users : list N := [5; 6; 7]%N.

End Examples.

(** ** Reading a csv field back *)

(** The inverse of the writer's quoting, as a csv reader applies it to one
    field: a field that opens with a quote is read up to its closing quote,
    a doubled quote standing for one; any other field is read as it is. *)
Fixpoint undouble (s : string) : string :=
  match s with
  | EmptyString => EmptyString
  | String c rest =>
      if Ascii.eqb c Csv.quotechar then
        match rest with
        | String c' rest' =>
            if Ascii.eqb c' Csv.quotechar then String Csv.quotechar (undouble rest')
            else EmptyString
        | EmptyString => EmptyString
        end
      else String c (undouble rest)
  end.

Definition read_field (text : string) : string :=
  match text with
  | String c rest => if Ascii.eqb c Csv.quotechar then undouble rest else text
  | EmptyString => EmptyString
  end.

(** ** The avatar *)

(** [s.split(sep)] for a non-empty separator: [s] is cut at every
    occurrence of [sep], found left to right and not overlapping.  [skip]
    counts the characters of a found separator that are still to pass. *)
Fixpoint split_from (sep s : string) (skip : nat) (current : string) : list string :=
  match s with
  | EmptyString => [current]
  | String c rest =>
      match skip with
      | S k => split_from sep rest k current
      | O =>
          if String.prefix sep s
          then current :: split_from sep rest (String.length sep - 1) EmptyString
          else split_from sep rest 0 (current ++ String c EmptyString)
      end
  end.

Definition split (sep s : string) : list string := split_from sep s 0 EmptyString.

Inductive Method := PUT | DELETE.

(** The user's [avatar] field (the stored file's name, [None] when the
    field is empty) and the files of the storage, name and content. *)
Record AvatarState := {
  avatar : option string;
  storage : list (string * string)
}.

(** What went wrong inside the [try] block. *)
Inductive AvatarFailure :=
| UnpackFailure
| DecodeFailure
| SaveFailure.

Inductive AvatarResponse :=
| AvatarRequired
| AvatarError (e : AvatarFailure)
| AvatarSaved (avatar_url : string)
| AvatarDeleted
| AvatarMissing.

Definition avatar_status (r : AvatarResponse) : N :=
  match r with
  | AvatarRequired => HTTP_400_BAD_REQUEST
  | AvatarError _ => HTTP_400_BAD_REQUEST
  | AvatarSaved _ => HTTP_200_OK
  | AvatarDeleted => HTTP_204_NO_CONTENT
  | AvatarMissing => HTTP_404_NOT_FOUND
  end.

Definition file_content (name : string) (files : list (string * string)) : option string :=
  option_map snd (find (fun f => String.eqb (fst f) name) files).

(** [os.remove(user.avatar.path)] when the file exists, then
    [user.avatar.delete()]: the file leaves the storage and the field is
    emptied and saved. *)
Definition remove_avatar (st : AvatarState) : AvatarState :=
  match avatar st with
  | Some name =>
      {| avatar := None;
         storage := filter (fun f => negb (String.eqb (fst f) name)) (storage st) |}
  | None => st
  end.

Section HandleAvatar.

(** [base64.b64decode], [None] where it raises. *)
Variable b64decode : string -> option string.

(** [user.avatar.save(name, ...)]: the name under which the field's
    storage keeps the file (its [upload_to] and naming rules), [None]
    where saving raises, as for a name the field has no room for. *)
Variable stored_name : string -> option string.

(** [request.build_absolute_uri(user.avatar.url)] for a stored name. *)
Variable avatar_url_of : string -> string.

(** [UserViewSet.handle_avatar].  [avatar_data] is
    [request.data.get('avatar')] for a string value, [uuid] the value
    [uuid.uuid4()] draws.  The old avatar is removed before the new data
    is looked at, and whatever raises inside the [try] is answered 400. *)
Definition handle_avatar (method : Method) (avatar_data : option string)
    (uuid : string) (st : AvatarState) : AvatarResponse * AvatarState :=
  match method with
  | PUT =>
      match avatar_data with
      | None | Some EmptyString => (AvatarRequired, st)
      | Some data =>
          let st1 := remove_avatar st in
          match split ";base64," data with
          | [format; imgstr] =>
              let ext := last (split "/" format) EmptyString in
              match b64decode imgstr with
              | Some content =>
                  match stored_name (uuid ++ "." ++ ext) with
                  | Some name =>
                      (AvatarSaved (avatar_url_of name),
                       {| avatar := Some name;
                          storage := (name, content) :: storage st1 |})
                  | None => (AvatarError SaveFailure, st1)
                  end
              | None => (AvatarError DecodeFailure, st1)
              end
          | _ => (AvatarError UnpackFailure, st1)
          end
      end
  | DELETE =>
      match avatar st with
      | Some _ => (AvatarDeleted, remove_avatar st)
      | None => (AvatarMissing, st)
      end
  end.

End HandleAvatar.

(** The field names a file of the storage whenever it names one at all. *)
Definition avatar_consistent (st : AvatarState) : Prop :=
  match avatar st with
  | Some name => file_content name (storage st) <> None
  | None => True
  end.

(** The numbers below [k], for checking a property digit by digit. *)
Fixpoint N_range (k : nat) : list N :=
  match k with
  | O => []
  | S k' => N_range k' ++ [N.of_nat k']
  end.

(** ** Codec facts *)

Module Base62Facts.
Import Base62.

Lemma N_range_In (k : nat) (d : N) : (d < N.of_nat k)%N -> In d (N_range k).
Proof.
  induction k as [|k IH]; intros H; [lia|].
  simpl. apply in_or_app.
  destruct (N.eq_dec d (N.of_nat k)) as [->|Hne]; [right; now left|].
  left. apply IH. lia.
Qed.

Lemma char_digit_digit_char (d : N) :
  (d < base)%N -> char_digit (digit_char d) = Some d.
Proof.
  intros H.
  assert (Hall : forallb (fun d => match char_digit (digit_char d) with
                                   | Some d' => N.eqb d' d
                                   | None => false
                                   end) (N_range 62) = true) by (vm_compute; reflexivity).
  rewrite forallb_forall in Hall.
  specialize (Hall d (N_range_In 62 d H)).
  destruct (char_digit (digit_char d)); [|discriminate].
  apply N.eqb_eq in Hall. now subst.
Qed.

Lemma digit_char_char_digit (c : ascii) (d : N) :
  char_digit c = Some d -> digit_char d = c /\ (d < base)%N.
Proof.
  destruct c as [[] [] [] [] [] [] [] []]; vm_compute; intros H;
    try discriminate; injection H as <-; split; reflexivity.
Qed.

Lemma digit_char_zero (d : N) :
  (d < base)%N -> digit_char d = zero_symbol -> d = 0%N.
Proof.
  intros Hd Hz.
  pose proof (char_digit_digit_char d Hd) as H.
  rewrite Hz in H. vm_compute in H. now injection H.
Qed.

Lemma size_nat_bound (n : N) : (n < 2 ^ N.of_nat (N.size_nat n))%N.
Proof.
  destruct n as [|p]; [reflexivity|].
  simpl N.size_nat.
  induction p as [p IH|p IH|]; simpl Pos.size_nat;
    rewrite ?Nat2N.inj_succ, ?N.pow_succ_r'; lia.
Qed.

Lemma div_base_fuel (fuel : nat) (n : N) :
  (n < 2 ^ N.of_nat (S fuel))%N -> (n / base < 2 ^ N.of_nat fuel)%N.
Proof.
  rewrite Nat2N.inj_succ, N.pow_succ_r'. intros H.
  apply N.Div0.div_lt_upper_bound. unfold base. lia.
Qed.

Lemma div_mod_base (n : N) : (n / base * base + n mod base = n)%N.
Proof.
  pose proof (N.div_mod n base ltac:(discriminate)). lia.
Qed.

Lemma to_base62_loop_zero (fuel : nat) (result : list ascii) :
  to_base62_loop fuel 0 result = result.
Proof. destruct fuel; reflexivity. Qed.

Lemma to_base62_loop_pos (fuel : nat) (n : N) (result : list ascii) :
  n <> 0%N ->
  to_base62_loop (S fuel) n result =
  to_base62_loop fuel (n / base) (digit_char (n mod base) :: result).
Proof.
  intros Hn. simpl. apply N.eqb_neq in Hn. now rewrite Hn.
Qed.

(** With fuel for every binary digit the loop stops because [num] reached
    zero: more fuel changes nothing. *)
Lemma to_base62_loop_fuel (fuel extra : nat) (n : N) (result : list ascii) :
  (n < 2 ^ N.of_nat fuel)%N ->
  to_base62_loop (fuel + extra) n result = to_base62_loop fuel n result.
Proof.
  revert n result. induction fuel as [|fuel IH]; intros n result Hn.
  - simpl in Hn. assert (n = 0%N) as -> by lia.
    now rewrite to_base62_loop_zero.
  - destruct (N.eq_dec n 0) as [->|Hne]; [reflexivity|].
    change (S fuel + extra)%nat with (S (fuel + extra)).
    rewrite !to_base62_loop_pos by assumption.
    apply IH. now apply div_base_fuel.
Qed.

Lemma from_base62_acc_app (l1 l2 : list ascii) (acc : N) :
  from_base62_acc (l1 ++ l2) acc =
  match from_base62_acc l1 acc with
  | Some v => from_base62_acc l2 v
  | None => None
  end.
Proof.
  revert acc. induction l1 as [|c l1 IH]; intros acc; simpl; [reflexivity|].
  destruct (char_digit c); [apply IH|reflexivity].
Qed.

Lemma from_base62_acc_ge (l : list ascii) (acc v : N) :
  from_base62_acc l acc = Some v -> (acc <= v)%N.
Proof.
  revert acc. induction l as [|c l IH]; intros acc; simpl.
  - intros H. injection H as <-. lia.
  - destruct (char_digit c) as [d|]; [|discriminate].
    intros H. apply IH in H. unfold base in H. lia.
Qed.

(** Decoding what the loop wrote in front of [result] is decoding [result]
    from the number the loop started with. *)
Lemma from_base62_loop (fuel : nat) (n : N) (result : list ascii) :
  (n < 2 ^ N.of_nat fuel)%N ->
  from_base62_acc (to_base62_loop fuel n result) 0 = from_base62_acc result n.
Proof.
  revert n result. induction fuel as [|fuel IH]; intros n result Hn.
  - simpl in Hn. assert (n = 0%N) as -> by lia. reflexivity.
  - destruct (N.eq_dec n 0) as [->|Hne]; [reflexivity|].
    rewrite to_base62_loop_pos by assumption.
    rewrite IH by now apply div_base_fuel.
    simpl. rewrite char_digit_digit_char by (apply N.mod_lt; discriminate).
    now rewrite div_mod_base.
Qed.

(** The loop's first symbol is a non-zero digit. *)
Lemma to_base62_loop_head (fuel : nat) (n : N) (result : list ascii) :
  n <> 0%N -> (n < 2 ^ N.of_nat fuel)%N ->
  exists d rest, d <> 0%N /\ (d < base)%N /\
                 to_base62_loop fuel n result = digit_char d :: rest.
Proof.
  revert n result. induction fuel as [|fuel IH]; intros n result Hne Hn.
  - simpl in Hn. lia.
  - rewrite to_base62_loop_pos by assumption.
    destruct (N.eq_dec (n / base) 0) as [Hq|Hq].
    + rewrite Hq, to_base62_loop_zero.
      exists (n mod base)%N, result.
      pose proof (div_mod_base n) as Hdm. rewrite Hq in Hdm.
      pose proof (N.mod_lt n base ltac:(discriminate)).
      repeat split; [lia|assumption].
    + apply IH; [assumption|now apply div_base_fuel].
Qed.

Lemma to_base62_loop_alphabet (fuel : nat) (n : N) (result : list ascii) :
  forallb in_alphabet result = true ->
  forallb in_alphabet (to_base62_loop fuel n result) = true.
Proof.
  revert n result. induction fuel as [|fuel IH]; intros n result Hres; simpl; [assumption|].
  destruct (n =? 0)%N; [assumption|].
  apply IH. simpl. rewrite Hres, andb_true_r.
  unfold in_alphabet.
  now rewrite char_digit_digit_char by (apply N.mod_lt; discriminate).
Qed.

(** A token without leading zero-symbol is what the loop writes for its
    value. *)
Lemma to_base62_loop_inverse (l : list ascii) :
  (forall c rest, l = c :: rest -> c <> zero_symbol) ->
  forall v, from_base62_acc l 0 = Some v ->
  forall fuel result, (v < 2 ^ N.of_nat fuel)%N ->
  to_base62_loop fuel v result = (l ++ result)%list.
Proof.
  induction l as [|c l IH] using rev_ind; intros Hhead v Hv fuel result Hfuel.
  - injection Hv as <-. now rewrite to_base62_loop_zero.
  - rewrite from_base62_acc_app in Hv.
    destruct (from_base62_acc l 0) as [v'|] eqn:Hv'; [|discriminate].
    simpl in Hv. destruct (char_digit c) as [d|] eqn:Hd; [|discriminate].
    injection Hv as <-.
    destruct (digit_char_char_digit c d Hd) as [Hdc Hdlt].
    assert (Hdiv : ((v' * base + d) / base = v')%N).
    { rewrite N.div_add_l by discriminate. rewrite N.div_small by assumption. lia. }
    assert (Hmod : ((v' * base + d) mod base = d)%N).
    { rewrite N.add_comm, N.Div0.mod_add. now apply N.mod_small. }
    assert (Hpos : (v' * base + d)%N <> 0%N).
    { destruct l as [|c0 l0].
      - injection Hv' as <-.
        intros Hz. apply (Hhead c []); [reflexivity|].
        rewrite <- Hdc. replace d with 0%N by lia. reflexivity.
      - assert (v' <> 0%N); [|unfold base; lia].
        simpl in Hv'. destruct (char_digit c0) as [d0|] eqn:Hd0; [|discriminate].
        apply from_base62_acc_ge in Hv'.
        destruct (digit_char_char_digit c0 d0 Hd0) as [Hdc0 _].
        intros ->. apply (Hhead c0 (l0 ++ [c])%list); [reflexivity|].
        rewrite <- Hdc0. replace d0 with 0%N by lia. reflexivity. }
    destruct fuel as [|fuel]; [simpl in Hfuel; lia|].
    rewrite to_base62_loop_pos by assumption.
    rewrite Hdiv, Hmod, Hdc.
    rewrite (IH (fun c0 rest E => Hhead c0 (rest ++ [c])%list ltac:(rewrite E; reflexivity))
                v' eq_refl fuel (c :: result)).
    + now rewrite <- app_assoc.
    + rewrite <- Hdiv. now apply div_base_fuel.
Qed.

Lemma from_base62_to_base62 (n : N) : from_base62 (to_base62 n) = Some n.
Proof.
  unfold from_base62, to_base62.
  destruct (N.eqb_spec n 0) as [->|Hne]; [reflexivity|].
  rewrite list_ascii_of_string_of_list_ascii.
  now rewrite from_base62_loop by apply size_nat_bound.
Qed.

Lemma to_base62_canonical (n : N) : canonical (to_base62 n) = true.
Proof.
  unfold canonical, to_base62.
  destruct (N.eqb_spec n 0) as [->|Hne]; [reflexivity|].
  rewrite list_ascii_of_string_of_list_ascii.
  destruct (to_base62_loop_head (N.size_nat n) n [] Hne (size_nat_bound n))
    as (d & rest & Hd0 & Hdlt & Hloop).
  pose proof (to_base62_loop_alphabet (N.size_nat n) n [] eq_refl) as Hall.
  rewrite Hloop in Hall |- *.
  destruct rest as [|c' rest'].
  - simpl in Hall. now rewrite andb_true_r in Hall.
  - rewrite Hall, andb_true_r.
    destruct (Ascii.eqb_spec (digit_char d) zero_symbol) as [Hz|]; [|reflexivity].
    now apply digit_char_zero in Hz.
Qed.

Lemma to_base62_from_base62 (s : string) :
  canonical s = true ->
  exists n, from_base62 s = Some n /\ to_base62 n = s.
Proof.
  unfold canonical, from_base62, to_base62.
  pose proof (string_of_list_ascii_of_string s) as Hs.
  remember (list_ascii_of_string s) as l eqn:Hl. clear Hl. subst s.
  destruct l as [|c [|c' rest]].
  - discriminate.
  - unfold in_alphabet. simpl.
    destruct (char_digit c) as [d|] eqn:Hd; [|discriminate]. intros _.
    destruct (digit_char_char_digit c d Hd) as [Hdc Hdlt].
    exists d. split; [reflexivity|].
    destruct (N.eqb_spec d 0) as [->|Hne]; [now rewrite <- Hdc|].
    destruct (N.size_nat d) as [|fuel] eqn:Hsz.
    { destruct d; [congruence|]. destruct p; discriminate. }
    rewrite to_base62_loop_pos by assumption.
    rewrite N.div_small, N.mod_small by assumption.
    now rewrite to_base62_loop_zero, Hdc.
  - intros H. apply andb_prop in H as [Hz Hall].
    assert (Hhead : forall c0 rest0, c :: c' :: rest = c0 :: rest0 -> c0 <> zero_symbol).
    { intros c0 rest0 [= <- _] E. subst c. now rewrite Ascii.eqb_refl in Hz. }
    assert (Hsome : exists v, from_base62_acc (c :: c' :: rest) 0 = Some v).
    { clear Hhead Hz. generalize 0%N. revert Hall.
      generalize (c :: c' :: rest). intros l. induction l as [|a l IH]; intros Hall acc.
      - now exists acc.
      - simpl in Hall |- *. apply andb_prop in Hall as [Ha Hall].
        unfold in_alphabet in Ha. destruct (char_digit a); [|discriminate].
        now apply IH. }
    destruct Hsome as [v Hv]. exists v. split; [assumption|].
    assert (Hvpos : v <> 0%N).
    { simpl in Hv. destruct (char_digit c) as [d|] eqn:Hd; [|discriminate].
      destruct (char_digit c') as [d'|]; [|discriminate].
      apply from_base62_acc_ge in Hv.
      destruct (digit_char_char_digit c d Hd) as [Hdc _].
      intros ->. apply (Hhead c (c' :: rest)); [reflexivity|].
      rewrite <- Hdc. replace d with 0%N by (unfold base in Hv; lia). reflexivity. }
    apply N.eqb_neq in Hvpos. rewrite Hvpos.
    rewrite (to_base62_loop_inverse _ Hhead v Hv _ [] (size_nat_bound v)).
    now rewrite app_nil_r.
Qed.

End Base62Facts.

(** ** Aggregation facts *)

Section AggregationFacts.
Import Models.

Lemma ingredient_eqb_eq (a b : Ingredient) : ingredient_eqb a b = true <-> a = b.
Proof.
  destruct a as [n1 u1], b as [n2 u2]. unfold ingredient_eqb. simpl.
  rewrite andb_true_iff, !String.eqb_eq.
  split; [intros [-> ->]; reflexivity|intros [= -> ->]; auto].
Qed.

Lemma ingredient_eqb_refl (a : Ingredient) : ingredient_eqb a a = true.
Proof. now apply ingredient_eqb_eq. Qed.

Lemma ingredient_eqb_neq (a b : Ingredient) : ingredient_eqb a b = false <-> a <> b.
Proof.
  rewrite <- ingredient_eqb_eq. destruct (ingredient_eqb a b); split; congruence.
Qed.

Lemma sumZ_app (l1 l2 : list Z) : sumZ (l1 ++ l2) = (sumZ l1 + sumZ l2)%Z.
Proof. induction l1 as [|x l1 IH]; simpl; [reflexivity|rewrite IH; lia]. Qed.

Lemma group_total_cons (k : Ingredient) (l : RecipeIngredient) (ls : list RecipeIngredient) :
  group_total k (l :: ls) =
  ((if ingredient_eqb (ingredient l) k then amount l else 0) + group_total k ls)%Z.
Proof.
  unfold group_total. simpl. destruct (ingredient_eqb (ingredient l) k); reflexivity.
Qed.

Lemma group_total_app (k : Ingredient) (l1 l2 : list RecipeIngredient) :
  group_total k (l1 ++ l2) = (group_total k l1 + group_total k l2)%Z.
Proof.
  unfold group_total. now rewrite filter_app, map_app, sumZ_app.
Qed.

Lemma total_of_add_to_group (ing : Ingredient) (amt : Z) (groups : list ValuesRow)
    (k : Ingredient) :
  total_of k (add_to_group ing amt groups) =
  if ingredient_eqb ing k
  then Some (match total_of k groups with Some t => t + amt | None => amt end)%Z
  else total_of k groups.
Proof.
  unfold total_of.
  induction groups as [|g rest IH]; simpl.
  - destruct ing as [n u]. unfold row_key. simpl.
    destruct (ingredient_eqb _ k); reflexivity.
  - destruct (ingredient_eqb (row_key g) ing) eqn:Hg; simpl.
    + apply ingredient_eqb_eq in Hg.
      unfold row_key at 1. simpl. fold (row_key g). rewrite Hg.
      destruct (ingredient_eqb ing k); reflexivity.
    + destruct (ingredient_eqb (row_key g) k) eqn:Hk; simpl.
      * apply ingredient_eqb_eq in Hk. rewrite Hk in Hg.
        rewrite ingredient_eqb_neq in Hg.
        destruct (ingredient_eqb ing k) eqn:E; [|reflexivity].
        apply ingredient_eqb_eq in E. congruence.
      * apply IH.
Qed.

Lemma keys_add_to_group (ing : Ingredient) (amt : Z) (groups : list ValuesRow) :
  map row_key (add_to_group ing amt groups) =
  if existsb (fun g => ingredient_eqb (row_key g) ing) groups
  then map row_key groups
  else (map row_key groups ++ [ing])%list.
Proof.
  induction groups as [|g rest IH]; simpl.
  - destruct ing; reflexivity.
  - destruct (ingredient_eqb (row_key g) ing) eqn:Hg; simpl; [reflexivity|].
    rewrite IH. destruct (existsb _ rest); reflexivity.
Qed.

Lemma NoDup_keys_add_to_group (ing : Ingredient) (amt : Z) (groups : list ValuesRow) :
  NoDup (map row_key groups) -> NoDup (map row_key (add_to_group ing amt groups)).
Proof.
  intros Hnd. rewrite keys_add_to_group.
  destruct (existsb _ groups) eqn:Hex; [assumption|].
  apply (Permutation_NoDup (Permutation_cons_append _ ing)).
  constructor; [|assumption].
  intros Hin. apply in_map_iff in Hin as (g & Hk & Hg).
  assert (existsb (fun g => ingredient_eqb (row_key g) ing) groups = true); [|congruence].
  apply existsb_exists. exists g. split; [assumption|now apply ingredient_eqb_eq].
Qed.

Lemma values_annotate_sum_fold (lines : list RecipeIngredient) (groups : list ValuesRow) :
  NoDup (map row_key groups) ->
  let groups' := fold_left (fun gs line => add_to_group (ingredient line) (amount line) gs)
                           lines groups in
  NoDup (map row_key groups') /\
  forall k, total_of k groups' =
            match total_of k groups with
            | Some t => Some (t + group_total k lines)%Z
            | None => if existsb (fun l => ingredient_eqb (ingredient l) k) lines
                      then Some (group_total k lines) else None
            end.
Proof.
  revert groups. induction lines as [|l ls IH]; intros groups Hnd; simpl.
  - split; [assumption|]. intros k. unfold group_total. simpl.
    destruct (total_of k groups); [f_equal; lia|reflexivity].
  - destruct (IH _ (NoDup_keys_add_to_group (ingredient l) (amount l) groups Hnd))
      as [Hnd' Htot].
    split; [assumption|]. intros k. rewrite Htot, total_of_add_to_group.
    rewrite group_total_cons.
    destruct (ingredient_eqb (ingredient l) k); simpl.
    + destruct (total_of k groups); f_equal; lia.
    + destruct (total_of k groups); [reflexivity|].
      destruct (existsb _ ls); reflexivity.
Qed.

Lemma total_of_In (groups : list ValuesRow) (g : ValuesRow) :
  NoDup (map row_key groups) -> In g groups ->
  total_of (row_key g) groups = Some (total_amount g).
Proof.
  unfold total_of. induction groups as [|h rest IH]; intros Hnd Hin; [contradiction|].
  simpl in *. inversion Hnd as [|? ? Hnotin Hnd']; subst.
  destruct (ingredient_eqb (row_key h) (row_key g)) eqn:Hk.
  - destruct Hin as [->|Hin]; [reflexivity|].
    apply ingredient_eqb_eq in Hk. exfalso. apply Hnotin. rewrite Hk.
    now apply in_map.
  - destruct Hin as [->|Hin]; [now rewrite ingredient_eqb_refl in Hk|now apply IH].
Qed.

Lemma total_of_Some (groups : list ValuesRow) (k : Ingredient) (t : Z) :
  total_of k groups = Some t ->
  exists g, In g groups /\ row_key g = k /\ total_amount g = t.
Proof.
  unfold total_of. destruct (find _ groups) as [g|] eqn:Hf; [|discriminate].
  intros [= <-]. apply find_some in Hf as [Hin Hk].
  exists g. rewrite ingredient_eqb_eq in Hk. auto.
Qed.

(** What the grouping step yields: one group per pair, each with the sum
    of its lines. *)
Lemma values_annotate_sum_spec (lines : list RecipeIngredient) :
  NoDup (map row_key (values_annotate_sum lines)) /\
  (forall g, In g (values_annotate_sum lines) ->
             total_amount g = group_total (row_key g) lines /\
             exists l, In l lines /\ ingredient l = row_key g) /\
  (forall l, In l lines ->
             exists g, In g (values_annotate_sum lines) /\ row_key g = ingredient l).
Proof.
  destruct (values_annotate_sum_fold lines [] (NoDup_nil _)) as [Hnd Htot].
  fold (values_annotate_sum lines) in Hnd, Htot. simpl in Htot.
  split; [assumption|split].
  - intros g Hin. pose proof (total_of_In _ g Hnd Hin) as Hg.
    rewrite Htot in Hg.
    destruct (existsb _ lines) eqn:Hex; [|discriminate].
    injection Hg as Hg. split; [now symmetry|].
    apply existsb_exists in Hex as (l & Hl & Hk).
    exists l. split; [assumption|now apply ingredient_eqb_eq].
  - intros l Hl.
    assert (Hex : existsb (fun l' => ingredient_eqb (ingredient l') (ingredient l)) lines = true).
    { apply existsb_exists. exists l. split; [assumption|apply ingredient_eqb_refl]. }
    specialize (Htot (ingredient l)). rewrite Hex in Htot.
    apply total_of_Some in Htot as (g & Hg & Hk & _). now exists g.
Qed.

Lemma insert_row_perm (leb : ValuesRow -> ValuesRow -> bool) (r : ValuesRow)
    (rows : list ValuesRow) :
  Permutation (insert_row leb r rows) (r :: rows).
Proof.
  induction rows as [|h t IH]; simpl; [reflexivity|].
  destruct (leb r h); [reflexivity|].
  rewrite IH. apply perm_swap.
Qed.

Lemma order_rows_perm (leb : ValuesRow -> ValuesRow -> bool) (rows : list ValuesRow) :
  Permutation (order_rows leb rows) rows.
Proof.
  induction rows as [|r rows IH]; simpl; [reflexivity|].
  rewrite insert_row_perm. now constructor.
Qed.

Lemma insert_row_sorted (leb : ValuesRow -> ValuesRow -> bool) (r : ValuesRow)
    (rows : list ValuesRow) :
  (forall a b, leb a b = true -> row_name_le a b) ->
  (forall a b, leb a b = false -> row_name_le b a) ->
  Sorted row_name_le rows -> Sorted row_name_le (insert_row leb r rows).
Proof.
  intros Hyes Hno.
  induction rows as [|h t IH]; intros Hs; simpl.
  - repeat constructor.
  - destruct (leb r h) eqn:Hle.
    + constructor; [assumption|]. constructor. now apply Hyes.
    + pose proof (Hno r h Hle) as Hhr.
      inversion Hs as [|? ? Hst Hhd]; subst.
      constructor; [now apply IH|].
      destruct t as [|h' t']; simpl.
      * now constructor.
      * destruct (leb r h'); constructor; [assumption|now inversion Hhd].
Qed.

Lemma order_rows_sorted (leb : ValuesRow -> ValuesRow -> bool) (rows : list ValuesRow) :
  (forall a b, leb a b = true -> row_name_le a b) ->
  (forall a b, leb a b = false -> row_name_le b a) ->
  Sorted row_name_le (order_rows leb rows).
Proof.
  intros Hyes Hno.
  induction rows as [|r rows IH]; simpl; [constructor|now apply insert_row_sorted].
Qed.

Lemma string_leb_refl (a : string) : String.leb a a = true.
Proof. now destruct (String.leb_total a a). Qed.

Lemma string_ltb_leb (a b : string) : String.ltb a b = true -> String.leb a b = true.
Proof. unfold String.ltb, String.leb. now destruct (String.compare a b). Qed.

Lemma string_ltb_false_leb (a b : string) :
  String.ltb a b = false -> String.leb b a = true.
Proof.
  unfold String.ltb, String.leb. rewrite (String.compare_antisym a b).
  destruct (String.compare b a); simpl; congruence.
Qed.

(** The engine that compares names only keeps the promise. *)
Lemma order_by_name_ok : OrderByName order_by_name.
Proof.
  split; intros rows.
  - apply order_rows_perm.
  - apply order_rows_sorted; unfold row_name_leb, row_name_le; intros a b H.
    + exact H.
    + destruct (String.leb_total (ingredient__name a) (ingredient__name b)); congruence.
Qed.

(** So does the engine that sorts on name and unit. *)
Lemma order_by_name_unit_ok : OrderByName order_by_name_unit.
Proof.
  split; intros rows.
  - apply order_rows_perm.
  - apply order_rows_sorted; unfold row_name_unit_leb, row_name_le; intros a b H.
    + apply orb_prop in H as [H|H]; [now apply string_ltb_leb|].
      apply andb_prop in H as [H _]. apply String.eqb_eq in H. rewrite H.
      apply string_leb_refl.
    + apply orb_false_elim in H as [H _]. now apply string_ltb_false_leb.
Qed.

Lemma Sorted_map {A B : Type} (R : A -> A -> Prop) (R' : B -> B -> Prop)
    (f : A -> B) (l : list A) :
  (forall a b, R a b -> R' (f a) (f b)) -> Sorted R l -> Sorted R' (map f l).
Proof.
  intros Hf. induction 1 as [|a l Hs IH Hhd]; simpl; constructor; [assumption|].
  destruct Hhd; simpl; constructor. now apply Hf.
Qed.

End AggregationFacts.

Section CartFacts.
Import Models.

Variable order_by : list ValuesRow -> list ValuesRow.
Hypothesis order_by_ok : OrderByName order_by.

Lemma sumZ_map_add {A : Type} (f g : A -> Z) (l : list A) :
  sumZ (map (fun x => f x + g x)%Z l) = (sumZ (map f l) + sumZ (map g l))%Z.
Proof. induction l as [|x l IH]; simpl; [reflexivity|rewrite IH; lia]. Qed.

Lemma sumZ_map_ext {A : Type} (f g : A -> Z) (l : list A) :
  (forall x, f x = g x) -> sumZ (map f l) = sumZ (map g l).
Proof. intros H. induction l as [|x l IH]; simpl; [reflexivity|now rewrite H, IH]. Qed.

Lemma recipe_quantity_cons (k : Ingredient) (l : RecipeIngredient)
    (ls : list RecipeIngredient) (r : N) :
  recipe_quantity (l :: ls) k r = (line_share k l r + recipe_quantity ls k r)%Z.
Proof.
  unfold recipe_quantity, line_share. simpl.
  destruct (recipe l =? r)%N; [apply group_total_cons|reflexivity].
Qed.

Lemma joined_copies_total (user : N) (carts : list ShoppingCart) (k : Ingredient)
    (l : RecipeIngredient) :
  group_total k (map (fun _ => l) (filter (in_cart_of user l) carts)) =
  sumZ (map (line_share k l) (cart_recipes user carts)).
Proof.
  unfold cart_recipes, in_cart_of.
  induction carts as [|c cs IH]; simpl; [reflexivity|].
  destruct (cart_user c =? user)%N; simpl; [|assumption].
  unfold line_share at 1. rewrite (N.eqb_sym (recipe l)).
  destruct (cart_recipe c =? recipe l)%N; simpl.
  - now rewrite group_total_cons, IH.
  - now rewrite IH.
Qed.

(** The joined lines of one pair add up to the quantities of the cart's
    recipes. *)
Lemma filter_user_cart_total (user : N) (carts : list ShoppingCart)
    (lines : list RecipeIngredient) (k : Ingredient) :
  group_total k (filter_user_cart user carts lines) =
  sumZ (map (recipe_quantity lines k) (cart_recipes user carts)).
Proof.
  unfold filter_user_cart.
  induction lines as [|l ls IH]; simpl.
  - induction (cart_recipes user carts) as [|r rs IHr]; simpl; [reflexivity|].
    now rewrite <- IHr.
  - rewrite group_total_app, joined_copies_total, IH.
    rewrite <- sumZ_map_add. apply sumZ_map_ext.
    intros r. now rewrite recipe_quantity_cons.
Qed.

Lemma filter_user_cart_In (user : N) (carts : list ShoppingCart)
    (lines : list RecipeIngredient) (l : RecipeIngredient) :
  In l (filter_user_cart user carts lines) <->
  In l lines /\ In (recipe l) (cart_recipes user carts).
Proof.
  unfold filter_user_cart, cart_recipes. rewrite in_flat_map. split.
  - intros (l' & Hl' & Hin). apply in_map_iff in Hin as (c & <- & Hc).
    apply filter_In in Hc as [Hc Hm]. unfold in_cart_of in Hm.
    apply andb_prop in Hm as [Hu Hr]. apply N.eqb_eq in Hr.
    split; [assumption|]. apply in_map_iff. exists c. split; [assumption|].
    apply filter_In. auto.
  - intros [Hl Hr]. apply in_map_iff in Hr as (c & Hc & Hin).
    apply filter_In in Hin as [Hin Hu].
    exists l. split; [assumption|]. apply in_map_iff. exists c. split; [reflexivity|].
    apply filter_In. split; [assumption|]. unfold in_cart_of.
    now rewrite Hu, Hc, N.eqb_refl.
Qed.

Lemma filter_user_cart_empty (user : N) (carts : list ShoppingCart)
    (lines : list RecipeIngredient) :
  (forall c, In c carts -> cart_user c <> user) ->
  filter_user_cart user carts lines = [].
Proof.
  intros Hno.
  destruct (filter_user_cart user carts lines) as [|l rest] eqn:E; [reflexivity|].
  assert (Hin : In l (filter_user_cart user carts lines)) by (rewrite E; now left).
  apply filter_user_cart_In in Hin as [_ Hr].
  unfold cart_recipes in Hr. apply in_map_iff in Hr as (c & _ & Hc).
  apply filter_In in Hc as [Hc Hu]. apply N.eqb_eq in Hu. now apply Hno in Hc.
Qed.

Lemma item_key_to_item (row : ValuesRow) : item_key (to_item row) = row_key row.
Proof. reflexivity. Qed.

Lemma ingredients_list_In (user : N) (carts : list ShoppingCart)
    (lines : list RecipeIngredient) (item : Item.t) :
  In item (ingredients_list order_by user carts lines) <->
  exists g, In g (values_annotate_sum (filter_user_cart user carts lines))
            /\ item = to_item g.
Proof.
  unfold ingredients_list, ingredients. rewrite in_map_iff.
  split; intros (g & H1 & H2).
  - exists g. split; [|now symmetry].
    now apply (Permutation_in _ (order_by_permutation _ order_by_ok _)).
  - exists g. split; [now symmetry|].
    now apply (Permutation_in _ (Permutation_sym (order_by_permutation _ order_by_ok _))).
Qed.

Lemma ingredients_list_keys (user : N) (carts : list ShoppingCart)
    (lines : list RecipeIngredient) :
  Permutation (map item_key (ingredients_list order_by user carts lines))
              (map row_key (values_annotate_sum (filter_user_cart user carts lines))).
Proof.
  unfold ingredients_list, ingredients. rewrite map_map.
  rewrite (map_ext _ row_key item_key_to_item).
  apply Permutation_map, (order_by_permutation _ order_by_ok).
Qed.

Lemma ingredients_list_amount (user : N) (carts : list ShoppingCart)
    (lines : list RecipeIngredient) (item : Item.t) :
  In item (ingredients_list order_by user carts lines) ->
  Item.amount item = group_total (item_key item) (filter_user_cart user carts lines).
Proof.
  intros Hin. apply ingredients_list_In in Hin as (g & Hg & ->).
  destruct (values_annotate_sum_spec (filter_user_cart user carts lines)) as (_ & Hsum & _).
  now destruct (Hsum g Hg) as [Ht _].
Qed.

Lemma ingredients_list_sorted (user : N) (carts : list ShoppingCart)
    (lines : list RecipeIngredient) :
  Sorted name_le (ingredients_list order_by user carts lines).
Proof.
  unfold ingredients_list, ingredients.
  apply (Sorted_map row_name_le); [|apply (order_by_sorted _ order_by_ok)].
  intros a b H. exact H.
Qed.

End CartFacts.

(** ** Writer facts *)

Module CsvFacts.
Import Csv.

Lemma append_assoc (a b c : string) : (a ++ b) ++ c = a ++ (b ++ c).
Proof. induction a as [|x a IH]; simpl; [reflexivity|now rewrite IH]. Qed.

Lemma append_nil_r (a : string) : a ++ "" = a.
Proof. induction a as [|x a IH]; simpl; [reflexivity|now rewrite IH]. Qed.

Lemma join_append_data_spec (field : string) (quoted : bool) :
  join_append_data field quoted = (double_quotes field, quoted || negb (plain field)).
Proof.
  revert quoted. induction field as [|c rest IH]; intros quoted; simpl.
  - now rewrite orb_false_r.
  - rewrite IH. f_equal.
    + destruct (Ascii.eqb_spec c quotechar) as [->|]; reflexivity.
    + destruct quoted, (needs_quotes c), (plain rest); reflexivity.
Qed.

Lemma double_quotes_plain (field : string) :
  plain field = true -> double_quotes field = field.
Proof.
  induction field as [|c rest IH]; simpl; [reflexivity|].
  intros H. apply andb_prop in H as [Hc Hrest].
  unfold needs_quotes in Hc.
  destruct (Ascii.eqb c quotechar); [now rewrite orb_true_r in Hc|].
  now rewrite IH.
Qed.

Lemma field_text_spec (field : string) :
  field_text field = if plain field then field else quoted_field field.
Proof.
  unfold field_text. rewrite join_append_data_spec. simpl.
  destruct (plain field) eqn:Hp; simpl; [now apply double_quotes_plain|reflexivity].
Qed.

Lemma contains_char (c : ascii) (s : string) :
  contains (String c "") s =
  match s with
  | EmptyString => false
  | String a s' => Ascii.eqb c a || contains (String c "") s'
  end.
Proof.
  destruct s as [|a s']; simpl; [reflexivity|].
  destruct (ascii_dec c a) as [->|Hne].
  - rewrite Ascii.eqb_refl. now destruct s'.
  - apply Ascii.eqb_neq in Hne. now rewrite Hne.
Qed.

Lemma plain_contains (field : string) :
  plain field = negb (contains "," field || contains DQUOTE field
                      || contains CR field || contains LF field).
Proof.
  unfold DQUOTE, CR, LF.
  induction field as [|c rest IH]; [reflexivity|].
  rewrite !(contains_char _ (String c rest)).
  change (plain (String c rest)) with (negb (needs_quotes c) && plain rest).
  rewrite IH. unfold needs_quotes, delimiter, quotechar.
  rewrite !(Ascii.eqb_sym c).
  destruct (Ascii.eqb "," c), (Ascii.eqb "034" c), (Ascii.eqb "013" c),
    (Ascii.eqb "010" c), (contains "," rest), (contains (String "034" "") rest),
    (contains (String "013" "") rest), (contains (String "010" "") rest); reflexivity.
Qed.

(** The writer's field is the field of the tabular text. *)
Lemma field_text_tabular (field : string) : field_text field = tabular_field field.
Proof.
  rewrite field_text_spec, plain_contains. unfold tabular_field.
  destruct (_ || _); reflexivity.
Qed.

Lemma plain_string_of_uint (d : Decimal.uint) :
  plain (NilEmpty.string_of_uint d) = true.
Proof. induction d; simpl; auto. Qed.

Lemma plain_str (n : Z) : plain (str n) = true.
Proof.
  unfold str, NilZero.string_of_int, NilZero.string_of_uint.
  destruct (Z.to_int n) as [d|d]; destruct d; simpl;
    try reflexivity; apply plain_string_of_uint.
Qed.

Lemma writerow_three (output a b c : string) :
  writerow output [a; b; c] =
  output ++ field_text a ++ "," ++ field_text b ++ "," ++ field_text c ++ CR ++ LF.
Proof.
  unfold writerow, join_append, join_reset, lineterminator, delimiter. simpl.
  rewrite !append_assoc.
  destruct (field_text a) as [|x a'] eqn:Ha;
    repeat (simpl; rewrite ?append_assoc); reflexivity.
Qed.

Lemma writerow_item (output : string) (item : Item.t) :
  writerow output (csv_row item) = output ++ tabular_row item.
Proof.
  unfold csv_row, tabular_row.
  rewrite writerow_three, (field_text_spec (str _)), plain_str, !field_text_tabular.
  reflexivity.
Qed.

Lemma writerow_items (output : string) (items : list Item.t) :
  fold_left (fun out item => writerow out (csv_row item)) items output =
  output ++ String.concat "" (map tabular_row items).
Proof.
  revert output. induction items as [|item items IH]; intros output.
  - simpl. now rewrite append_nil_r.
  - cbn [fold_left map]. rewrite IH, writerow_item, append_assoc. f_equal.
    destruct items as [|i2 rest]; simpl; [now rewrite append_nil_r|reflexivity].
Qed.

End CsvFacts.

(** ** Letter case *)

Lemma lower_upper_char (b : ascii) : is_lower b = true -> lower_char (upper_char b) = b.
Proof.
  destruct b as [[] [] [] [] [] [] [] []]; vm_compute; intros H;
    try reflexivity; discriminate.
Qed.

Lemma lower_casing_of (s word : string) :
  casing_of s word = true -> lower word = word -> lower s = word.
Proof.
  revert word. induction s as [|a s IH]; intros [|b word] Hc Hw;
    try discriminate; [reflexivity|].
  simpl in Hc, Hw |- *. apply andb_prop in Hc as [Hab Hrest].
  injection Hw as Hb Hw. rewrite (IH word Hrest Hw). f_equal.
  apply orb_prop in Hab as [Hab|Hab].
  - apply Ascii.eqb_eq in Hab. now subst.
  - apply andb_prop in Hab as [Hl Hab]. apply Ascii.eqb_eq in Hab. subst a.
    now apply lower_upper_char.
Qed.

(** ** Follow table facts *)

Section FollowFacts.
Import Models.

Lemma find_split {A : Type} (p : A -> bool) (l : list A) (x : A) :
  find p l = Some x ->
  exists l1 l2, l = (l1 ++ x :: l2)%list /\ p x = true.
Proof.
  induction l as [|a l IH]; simpl; [discriminate|].
  destruct (p a) eqn:Hpa.
  - intros [= <-]. now exists [], l.
  - intros H. destruct (IH H) as (l1 & l2 & -> & Hx).
    now exists (a :: l1), l2.
Qed.

Lemma filter_keep_all {A : Type} (p : A -> bool) (l : list A) :
  (forall y, In y l -> p y = true) -> filter p l = l.
Proof.
  induction l as [|a l IH]; intros H; simpl; [reflexivity|].
  rewrite (H a (or_introl eq_refl)), IH; [reflexivity|].
  intros y Hy. apply H. now right.
Qed.

Lemma delete_by_pk (l1 l2 : list Follow) (f : Follow) :
  NoDup (map pk (l1 ++ f :: l2)) ->
  filter (fun g => negb (pk g =? pk f)%N) (l1 ++ f :: l2) = (l1 ++ l2)%list.
Proof.
  intros Hnd. rewrite map_app in Hnd. simpl in Hnd.
  apply NoDup_remove_2 in Hnd.
  rewrite filter_app. simpl. rewrite N.eqb_refl. simpl.
  rewrite !filter_keep_all; [reflexivity| |];
    intros y Hy; apply negb_true_iff, N.eqb_neq; intros E; apply Hnd;
    rewrite <- E; apply in_or_app; [right|left]; now apply in_map.
Qed.

End FollowFacts.

(** ** Query parameter facts *)

Lemma get_search_terms_absent (query_params : QueryDict) :
  qd_get "search" query_params = None -> get_search_terms query_params = [].
Proof.
  intros H. unfold get_search_terms, qd_get_default. now rewrite H.
Qed.

Lemma search_filter_no_terms (fold_case : string -> string) (query_params : QueryDict)
    (queryset : list Models.Ingredient) :
  get_search_terms query_params = [] ->
  search_filter fold_case query_params queryset = queryset.
Proof.
  intros H. unfold search_filter. rewrite H. simpl.
  now apply filter_keep_all.
Qed.

Lemma search_filter_incl (fold_case : string -> string) (query_params : QueryDict)
    (queryset : list Models.Ingredient) (i : Models.Ingredient) :
  In i (search_filter fold_case query_params queryset) -> In i queryset.
Proof. unfold search_filter. intros H. now apply filter_In in H. Qed.

(** ** The short link *)

(** Claim C1.  Decoding the token made from a non-negative integer gives the
    integer back, and the codec is a bijection between the non-negative
    integers and the strings over the alphabet without leading zero-symbol
    (the zero value apart): encoding is injective, every token it makes is
    such a string, and every such string is the token of its own value. *)
Theorem base62_round_trip_bijection :
  (forall n : N, Base62.from_base62 (Base62.to_base62 n) = Some n) /\
  (forall n m : N, Base62.to_base62 n = Base62.to_base62 m -> n = m) /\
  (forall n : N, Base62.canonical (Base62.to_base62 n) = true) /\
  (forall s : string, Base62.canonical s = true ->
     exists n : N, Base62.from_base62 s = Some n /\ Base62.to_base62 n = s).
Proof.
  split; [exact Base62Facts.from_base62_to_base62|].
  split; [|split; [exact Base62Facts.to_base62_canonical
                  |exact Base62Facts.to_base62_from_base62]].
  intros n m H.
  pose proof (Base62Facts.from_base62_to_base62 n) as Hn.
  rewrite H, Base62Facts.from_base62_to_base62 in Hn. now injection Hn.
Qed.

Lemma base62_round_trip_bijection_witness :
  Base62.canonical "8m0Kx" = true /\
  exists n : N, Base62.from_base62 "8m0Kx" = Some n /\ Base62.to_base62 n = "8m0Kx".
Proof.
  split; [reflexivity|].
  apply (proj2 (proj2 (proj2 base62_round_trip_bijection))). reflexivity.
Defined.

(** Claim C7.  The zero-symbol is the first symbol of the alphabet,
    [encode(0)] is that one symbol, and the token of an integer above zero
    never begins with it. *)
Theorem encode_zero_and_no_leading_zero :
  String.get 0 Base62.alphabet = Some Base62.zero_symbol /\
  Base62.to_base62 0 = String Base62.zero_symbol EmptyString /\
  forall n : N, (0 < n)%N ->
    exists c rest, Base62.to_base62 n = String c rest /\ c <> Base62.zero_symbol.
Proof.
  split; [reflexivity|split; [reflexivity|]].
  intros n Hn. unfold Base62.to_base62.
  assert (Hne : n <> 0%N) by lia.
  destruct (N.eqb_spec n 0) as [|_]; [contradiction|].
  destruct (Base62Facts.to_base62_loop_head (N.size_nat n) n [] Hne
              (Base62Facts.size_nat_bound n)) as (d & rest & Hd0 & Hdlt & Hloop).
  rewrite Hloop. simpl.
  exists (Base62.digit_char d), (string_of_list_ascii rest).
  split; [reflexivity|].
  intros Hz. now apply Base62Facts.digit_char_zero in Hz.
Qed.

Lemma encode_zero_and_no_leading_zero_witness :
  (0 < 3844)%N /\
  exists c rest, Base62.to_base62 3844 = String c rest /\ c <> Base62.zero_symbol.
Proof.
  split; [reflexivity|].
  apply (proj2 (proj2 encode_zero_and_no_leading_zero)). reflexivity.
Defined.

(** The link of a stored recipe ends in the token of its key, which decodes
    to the key. *)
Lemma generate_share_link_token (base_uri : string) (recipe_ids : list N) (pk : N) :
  In pk recipe_ids ->
  generate_share_link base_uri recipe_ids pk
  = ShareOk (base_uri ++ "/s/" ++ Base62.to_base62 pk)
  /\ Base62.from_base62 (Base62.to_base62 pk) = Some pk.
Proof.
  intros Hin. unfold generate_share_link.
  assert (Hex : existsb (N.eqb pk) recipe_ids = true).
  { apply existsb_exists. exists pk. split; [assumption|apply N.eqb_refl]. }
  rewrite Hex. split; [reflexivity|apply Base62Facts.from_base62_to_base62].
Qed.

(** ** The shopping list *)

Section ShoppingListClaims.
Import Models.

(** Claim C2, as the code has it.  Whatever the database engine, as long as
    it keeps the promise of [ORDER BY name]: for every cart table and every
    table of recipe ingredient lines the list has one entry per
    (name, unit) pair found among the lines of the user's cart recipes,
    each entry carries the sum of the amounts of its pair's lines, and the
    entries ascend by ingredient name.  The place of entries with equal
    names is the engine's choice, not fixed by the unit. *)
Theorem aggregation_groups_sums_sorts_by_name
    (order_by : list ValuesRow -> list ValuesRow) (order_by_ok : OrderByName order_by)
    (user : N) (carts : list ShoppingCart) (lines : list RecipeIngredient) :
  NoDup (map item_key (ingredients_list order_by user carts lines)) /\
  (forall k : Ingredient,
     In k (map item_key (ingredients_list order_by user carts lines)) <->
     exists l, In l (filter_user_cart user carts lines) /\ ingredient l = k) /\
  (forall item : Item.t,
     In item (ingredients_list order_by user carts lines) ->
     Item.amount item = group_total (item_key item) (filter_user_cart user carts lines)) /\
  Sorted name_le (ingredients_list order_by user carts lines).
Proof.
  destruct (values_annotate_sum_spec (filter_user_cart user carts lines))
    as (Hnd & Hsum & Hcov).
  split; [|split; [|split]].
  - apply (Permutation_NoDup
             (Permutation_sym (ingredients_list_keys order_by order_by_ok user carts lines))).
    exact Hnd.
  - intros k. split.
    + intros Hin. apply in_map_iff in Hin as (item & <- & Hitem).
      apply (ingredients_list_In order_by order_by_ok) in Hitem as (g & Hg & ->).
      destruct (Hsum g Hg) as [_ (l & Hl & Hk)]. now exists l.
    + intros (l & Hl & <-). destruct (Hcov l Hl) as (g & Hg & Hk).
      apply in_map_iff. exists (to_item g). split; [exact Hk|].
      apply (ingredients_list_In order_by order_by_ok). now exists g.
  - apply (ingredients_list_amount order_by order_by_ok).
  - apply (ingredients_list_sorted order_by order_by_ok).
Qed.

Lemma aggregation_groups_sums_sorts_by_name_witness :
  Sorted name_le (ingredients_list order_by_name_unit 5 Examples.carts Examples.two_unit_lines)
  /\ Sorted name_le (ingredients_list order_by_name 5 Examples.carts Examples.two_unit_lines).
Proof.
  split.
  - apply (aggregation_groups_sums_sorts_by_name order_by_name_unit order_by_name_unit_ok).
  - apply (aggregation_groups_sums_sorts_by_name order_by_name order_by_name_ok).
Defined.

(** Claim C2 as worded does not follow from the code, which orders by name
    and by nothing else.  Two engines keep the promise of [ORDER BY name]
    and disagree on the recipe that asks for salt by the kilogram and by
    the gram: one gives gram then kilogram, the other kilogram then gram,
    and this second list is not ordered by unit among equal names.  So
    "ties broken by unit" does not hold for every engine the code may run
    on. *)
Lemma equal_names_not_ordered_by_unit :
  OrderByName order_by_name_unit
  /\ OrderByName order_by_name
  /\ map Item.measurement_unit
       (ingredients_list order_by_name_unit 5 Examples.carts Examples.two_unit_lines)
     = ["g"; "kg"]
  /\ map Item.measurement_unit
       (ingredients_list order_by_name 5 Examples.carts Examples.two_unit_lines)
     = ["kg"; "g"]
  /\ ~ (forall order_by, OrderByName order_by ->
        Sorted name_unit_le
               (ingredients_list order_by 5 Examples.carts Examples.two_unit_lines)).
Proof.
  split; [exact order_by_name_unit_ok|].
  split; [exact order_by_name_ok|].
  split; [reflexivity|split; [reflexivity|]].
  intros Hall. specialize (Hall order_by_name order_by_name_ok).
  change (ingredients_list order_by_name 5 Examples.carts Examples.two_unit_lines)
    with [to_item {| ingredient__name := "Salt"; ingredient__measurement_unit := "kg";
                     total_amount := 1 |};
          to_item {| ingredient__name := "Salt"; ingredient__measurement_unit := "g";
                     total_amount := 500 |}] in Hall.
  inversion Hall as [|? ? _ Hhd]; subst. inversion Hhd as [|? ? Hle]; subst.
  destruct Hle as [Hlt|[_ Hle]]; discriminate.
Qed.

(** Claim C3.  The amount of every entry of the list is the sum, over the
    recipes in the user's cart, of the quantity that recipe asks of the
    entry's (name, unit) pair: what several recipes ask of one ingredient
    is added up.  This holds for every engine that keeps the promise of
    [ORDER BY name]. *)
Theorem aggregated_amount_is_cart_sum
    (order_by : list ValuesRow -> list ValuesRow) (order_by_ok : OrderByName order_by)
    (user : N) (carts : list ShoppingCart) (lines : list RecipeIngredient)
    (item : Item.t) :
  In item (ingredients_list order_by user carts lines) ->
  Item.amount item
  = sumZ (map (recipe_quantity lines (item_key item)) (cart_recipes user carts)).
Proof.
  intros Hin.
  rewrite (ingredients_list_amount order_by order_by_ok user carts lines item Hin).
  apply filter_user_cart_total.
Qed.

(** Recipes asking for 2 and 3 grams of salt give the one entry Salt, g, 5. *)
Lemma aggregated_amount_is_cart_sum_witness :
  ingredients_list order_by_name 5 Examples.carts Examples.salt_lines = [Examples.salt_item]
  /\ Item.amount Examples.salt_item
     = sumZ (map (recipe_quantity Examples.salt_lines (item_key Examples.salt_item))
                 (cart_recipes 5 Examples.carts)).
Proof.
  split; [reflexivity|].
  apply (aggregated_amount_is_cart_sum order_by_name order_by_name_ok
           5 Examples.carts Examples.salt_lines).
  simpl. left. reflexivity.
Defined.

(** Claim C4, as the code has it.  A requested format whose lower-case form
    is none of txt, csv and pdf is answered with status 400 and the
    unsupported-format message. *)
Theorem unsupported_format_is_400
    (order_by : list ValuesRow -> list ValuesRow)
    (user : N) (carts : list ShoppingCart) (lines : list RecipeIngredient)
    (query_params : QueryDict) :
  lower (qd_get_default "format" "txt" query_params) <> "txt" ->
  lower (qd_get_default "format" "txt" query_params) <> "csv" ->
  lower (qd_get_default "format" "txt" query_params) <> "pdf" ->
  export_shopping_cart order_by user carts lines query_params
  = detail_response HTTP_400_BAD_REQUEST "Неподдерживаемый формат файла".
Proof.
  intros Htxt Hcsv Hpdf. unfold export_shopping_cart.
  apply String.eqb_neq in Htxt, Hcsv, Hpdf.
  now rewrite Htxt, Hcsv, Hpdf.
Qed.

Lemma unsupported_format_is_400_witness :
  status (export_shopping_cart order_by_name 5 Examples.carts Examples.salt_lines
            [("format", "xml")])
  = 400%N.
Proof.
  rewrite (unsupported_format_is_400 order_by_name 5 Examples.carts Examples.salt_lines
             [("format", "xml")]).
  - reflexivity.
  - vm_compute. discriminate.
  - vm_compute. discriminate.
  - vm_compute. discriminate.
Defined.

(** Claim C4 as worded fails: TXT is not one of the three identifiers, yet
    the request is served as a plain-text export. *)
Lemma upper_case_format_is_served :
  "TXT" <> "txt" /\ "TXT" <> "csv" /\ "TXT" <> "pdf"
  /\ export_shopping_cart order_by_name 5 Examples.carts Examples.salt_lines
       [("format", "TXT")]
     = attachment (Text "Salt (g) — 5") "text/plain" "shopping_list.txt"
  /\ status (export_shopping_cart order_by_name 5 Examples.carts Examples.salt_lines
               [("format", "TXT")])
     <> HTTP_400_BAD_REQUEST.
Proof.
  repeat split; try discriminate.
Qed.

(** Claim C5.  The csv response is the tabular text: the header row, then
    one row per entry with name, amount and unit in that order, separated
    by commas; and the writer puts a field that holds a comma or a quote
    between quotes, its quotes doubled. *)
Theorem csv_response_is_tabular_text (items : list Item.t) :
  _generate_csv_response items
  = attachment (Text (tabular_text items)) "text/csv" "shopping_list.csv"
  /\ forall field : string,
       contains "," field = true \/ contains DQUOTE field = true ->
       Csv.field_text field = Csv.quoted_field field.
Proof.
  split.
  - unfold _generate_csv_response, tabular_text.
    rewrite CsvFacts.writerow_items.
    assert (Hheader : Csv.writerow "" csv_header
                      = "Ингредиент,Количество,Единица измерения" ++ CR ++ LF)
      by (vm_compute; reflexivity).
    now rewrite Hheader, !CsvFacts.append_assoc.
  - intros field H. rewrite CsvFacts.field_text_spec, CsvFacts.plain_contains.
    destruct H as [-> | ->]; simpl; [reflexivity|].
    now rewrite orb_true_r.
Qed.

Lemma csv_response_is_tabular_text_witness :
  Csv.field_text "Pepper, black" = DQUOTE ++ "Pepper, black" ++ DQUOTE.
Proof.
  rewrite (proj2 (csv_response_is_tabular_text []) "Pepper, black").
  - reflexivity.
  - left. reflexivity.
Defined.

(** The title of the document cannot be encoded to latin-1, so the pdf
    renderer raises whatever the entries. *)
Lemma _generate_pdf_response_raises (items : list Item.t) :
  _generate_pdf_response items = server_error.
Proof. reflexivity. Qed.

(** Claim C6, at the input where the code fails it.  When the user has
    nothing in the cart the list is empty, the plain-text body is empty and
    the csv body is the header row alone, as the claim says; but the pdf
    export of the empty list raises and is answered 500, where the claim
    asks for a document without entries. *)
Theorem empty_cart_exports
    (order_by : list ValuesRow -> list ValuesRow) (order_by_ok : OrderByName order_by)
    (user : N) (carts : list ShoppingCart) (lines : list RecipeIngredient) :
  (forall c, In c carts -> cart_user c <> user) ->
  ingredients_list order_by user carts lines = []
  /\ export_shopping_cart order_by user carts lines [("format", "txt")]
     = attachment (Text "") "text/plain" "shopping_list.txt"
  /\ export_shopping_cart order_by user carts lines [("format", "csv")]
     = attachment (Text ("Ингредиент,Количество,Единица измерения" ++ CR ++ LF))
                  "text/csv" "shopping_list.csv"
  /\ export_shopping_cart order_by user carts lines [("format", "pdf")] = server_error
  /\ status (export_shopping_cart order_by user carts lines [("format", "pdf")])
     = HTTP_500_INTERNAL_SERVER_ERROR.
Proof.
  intros Hno.
  assert (Hempty : ingredients_list order_by user carts lines = []).
  { unfold ingredients_list, ingredients.
    rewrite (filter_user_cart_empty user carts lines Hno).
    change (values_annotate_sum []) with (@nil ValuesRow).
    now rewrite (Permutation_nil (Permutation_sym (order_by_permutation _ order_by_ok []))). }
  unfold export_shopping_cart. rewrite Hempty.
  repeat split.
Qed.

Lemma empty_cart_exports_witness :
  body (export_shopping_cart order_by_name 7 Examples.carts Examples.salt_lines
          [("format", "csv")])
  = Text ("Ингредиент,Количество,Единица измерения" ++ CR ++ LF)
  /\ status (export_shopping_cart order_by_name 7 Examples.carts Examples.salt_lines
               [("format", "pdf")])
     = 500%N.
Proof.
  assert (Hno : forall c, In c Examples.carts -> cart_user c <> 7%N).
  { intros c [<-|[<-|[<-|[]]]]; discriminate. }
  destruct (empty_cart_exports order_by_name order_by_name_ok
              7 Examples.carts Examples.salt_lines Hno)
    as (_ & _ & Hcsv & _ & Hpdf).
  rewrite Hcsv. split; [reflexivity|exact Hpdf].
Defined.

(** Claim C8.  Without a format parameter the plain-text export is
    returned, with status 200; and a format that is txt, csv or pdf up to
    the case of its letters selects the renderer of that format. *)
Theorem format_defaults_to_txt_and_ignores_case
    (order_by : list ValuesRow -> list ValuesRow)
    (user : N) (carts : list ShoppingCart) (lines : list RecipeIngredient)
    (query_params : QueryDict) :
  (qd_get "format" query_params = None ->
     export_shopping_cart order_by user carts lines query_params
     = _generate_text_response (ingredients_list order_by user carts lines)
     /\ status (export_shopping_cart order_by user carts lines query_params) = HTTP_200_OK)
  /\ (forall fmt : string,
        qd_get "format" query_params = Some fmt ->
        (casing_of fmt "txt" = true ->
           export_shopping_cart order_by user carts lines query_params
           = _generate_text_response (ingredients_list order_by user carts lines))
        /\ (casing_of fmt "csv" = true ->
              export_shopping_cart order_by user carts lines query_params
              = _generate_csv_response (ingredients_list order_by user carts lines))
        /\ (casing_of fmt "pdf" = true ->
              export_shopping_cart order_by user carts lines query_params
              = _generate_pdf_response (ingredients_list order_by user carts lines))).
Proof.
  unfold export_shopping_cart, qd_get_default. split.
  - intros ->. split; reflexivity.
  - intros fmt ->. repeat split; intros Hc;
      rewrite (lower_casing_of fmt _ Hc eq_refl); reflexivity.
Qed.

Lemma format_defaults_to_txt_and_ignores_case_witness :
  export_shopping_cart order_by_name 5 Examples.carts Examples.salt_lines
    [("format", "Pdf")]
  = _generate_pdf_response [Examples.salt_item]
  /\ export_shopping_cart order_by_name 5 Examples.carts Examples.salt_lines []
     = _generate_text_response [Examples.salt_item].
Proof.
  destruct (format_defaults_to_txt_and_ignores_case order_by_name
              5 Examples.carts Examples.salt_lines [("format", "Pdf")]) as [_ Hfmt].
  destruct (Hfmt "Pdf" eq_refl) as (_ & _ & Hpdf).
  destruct (format_defaults_to_txt_and_ignores_case order_by_name
              5 Examples.carts Examples.salt_lines []) as [Habs _].
  split; [exact (Hpdf eq_refl)|exact (proj1 (Habs eq_refl))].
Defined.

End ShoppingListClaims.

(** ** Unfollowing and the ingredient list *)

Section FollowAndIngredientClaims.
Import Models.

(** Claim C9.  With distinct primary keys in the follow table: when the
    target user exists and no row links the requesting user to the target,
    the answer is 400 and the table stays as it was; when such a row exists
    the answer is 204 and the table loses one row, a row linking the two,
    and nothing else; and whenever the answer is not 204 the table stays as
    it was. *)
Theorem manage_follow_delete_spec
    (users : list N) (follows : list Follow) (user id : N) :
  NoDup (map pk follows) ->
  (In id users ->
   (forall f, In f follows -> ~ (follower f = user /\ following f = id)) ->
     manage_follow_delete users follows user id
     = (detail_response HTTP_400_BAD_REQUEST "Вы не подписаны на этого пользователя.",
        follows))
  /\ (In id users ->
      (exists f, In f follows /\ follower f = user /\ following f = id) ->
        exists l1 f l2,
          follows = (l1 ++ f :: l2)%list
          /\ follower f = user /\ following f = id
          /\ manage_follow_delete users follows user id
             = (empty_response HTTP_204_NO_CONTENT, (l1 ++ l2)%list))
  /\ (status (fst (manage_follow_delete users follows user id)) <> HTTP_204_NO_CONTENT ->
      snd (manage_follow_delete users follows user id) = follows).
Proof.
  intros Hnd. unfold manage_follow_delete. split; [|split].
  - intros Hid Hnone.
    assert (Hex : existsb (N.eqb id) users = true).
    { apply existsb_exists. exists id. split; [assumption|apply N.eqb_refl]. }
    rewrite Hex.
    destruct (find (is_follow user id) follows) as [f|] eqn:Hf; [|reflexivity].
    apply find_some in Hf as [Hin Hm]. unfold is_follow in Hm.
    apply andb_prop in Hm as [Hu Ht]. apply N.eqb_eq in Hu, Ht.
    now destruct (Hnone f Hin).
  - intros Hid (f0 & Hin0 & Hu0 & Ht0).
    assert (Hex : existsb (N.eqb id) users = true).
    { apply existsb_exists. exists id. split; [assumption|apply N.eqb_refl]. }
    rewrite Hex.
    destruct (find (is_follow user id) follows) as [f|] eqn:Hf.
    + destruct (find_split _ _ _ Hf) as (l1 & l2 & Hsplit & Hm).
      unfold is_follow in Hm. apply andb_prop in Hm as [Hu Ht].
      apply N.eqb_eq in Hu, Ht.
      exists l1, f, l2. repeat split; try assumption.
      subst follows. now rewrite delete_by_pk.
    + exfalso. pose proof (find_none _ _ Hf f0 Hin0) as Hm.
      unfold is_follow in Hm. now rewrite Hu0, Ht0, !N.eqb_refl in Hm.
  - destruct (existsb (N.eqb id) users); [|reflexivity].
    destruct (find (is_follow user id) follows); [|reflexivity].
    simpl. intros H. now contradiction H.
Qed.

Lemma manage_follow_delete_spec_witness :
  manage_follow_delete Examples.users Examples.follows 6 5
  = (detail_response HTTP_400_BAD_REQUEST "Вы не подписаны на этого пользователя.",
     Examples.follows)
  /\ (exists l1 f l2,
       Examples.follows = (l1 ++ f :: l2)%list
       /\ follower f = 5%N /\ following f = 7%N
       /\ manage_follow_delete Examples.users Examples.follows 5 7
          = (empty_response HTTP_204_NO_CONTENT, (l1 ++ l2)%list))
  /\ snd (manage_follow_delete Examples.users Examples.follows 5 99) = Examples.follows.
Proof.
  assert (Hnd : NoDup (map pk Examples.follows)).
  { simpl. repeat constructor; simpl; intuition discriminate. }
  split; [|split].
  - apply (proj1 (manage_follow_delete_spec Examples.users Examples.follows 6 5 Hnd)).
    + simpl. auto.
    + intros f [<-|[<-|[<-|[]]]] [H1 H2]; discriminate.
  - apply (proj1 (proj2 (manage_follow_delete_spec Examples.users Examples.follows 5 7 Hnd))).
    + simpl. auto.
    + exists {| pk := 2; follower := 5; following := 7 |}. simpl. auto.
  - apply (proj2 (proj2 (manage_follow_delete_spec Examples.users Examples.follows 5 99 Hnd))).
    discriminate.
Defined.

(** A key that is no user's is answered with 404 before the follow table is
    looked at. *)
Lemma manage_follow_delete_unknown_user :
  manage_follow_delete Examples.users Examples.follows 5 99
  = (detail_response HTTP_404_NOT_FOUND "Not found.", Examples.follows).
Proof. reflexivity. Qed.

(** Claim C10, as the code has it.  With a non-empty name parameter every
    ingredient of the response is an ingredient of the table whose name
    starts with the parameter, letter case folded.  With the name
    parameter absent or empty [get_queryset] filters nothing: the response
    is the table as the view's search filter leaves it, and the whole table
    when there is no search parameter either. *)
Theorem ingredient_list_name_prefix
    (fold_case : string -> string) (query_params : QueryDict) (table : list Ingredient) :
  (forall value : string,
     qd_get "name" query_params = Some value -> value <> "" ->
     forall i, In i (list_ingredients fold_case query_params table) ->
               In i table /\ istartswith fold_case value i = true)
  /\ (qd_get "name" query_params = None \/ qd_get "name" query_params = Some "" ->
        get_queryset fold_case query_params table = table
        /\ list_ingredients fold_case query_params table
           = search_filter fold_case query_params table
        /\ (qd_get "search" query_params = None ->
              list_ingredients fold_case query_params table = table)).
Proof.
  unfold list_ingredients, get_queryset. split.
  - intros value -> Hne i Hin. apply search_filter_incl in Hin.
    destruct value as [|c rest]; [contradiction|].
    now apply filter_In in Hin.
  - intros [-> | ->]; repeat split; intros Hs;
      now apply search_filter_no_terms, get_search_terms_absent.
Qed.

Lemma ingredient_list_name_prefix_witness :
  list_ingredients upper [("name", "sa")] [Examples.salt_g; Examples.pepper]
  = [Examples.salt_g]
  /\ (In Examples.salt_g [Examples.salt_g; Examples.pepper]
      /\ istartswith upper "sa" Examples.salt_g = true)
  /\ list_ingredients upper [] [Examples.salt_g; Examples.pepper]
     = [Examples.salt_g; Examples.pepper].
Proof.
  split; [reflexivity|split].
  - apply (proj1 (ingredient_list_name_prefix upper [("name", "sa")]
                    [Examples.salt_g; Examples.pepper]) "sa").
    + reflexivity.
    + discriminate.
    + simpl. left. reflexivity.
  - apply (proj2 (ingredient_list_name_prefix upper []
                    [Examples.salt_g; Examples.pepper])).
    + left. reflexivity.
    + reflexivity.
Defined.

(** Claim C10 as worded fails: without a name parameter but with a search
    parameter the response is not the full table. *)
Lemma search_parameter_narrows_the_list :
  qd_get "name" [("search", "zzz")] = None
  /\ list_ingredients upper [("search", "zzz")] [Examples.salt_g; Examples.pepper] = []
  /\ list_ingredients upper [("search", "zzz")] [Examples.salt_g; Examples.pepper]
     <> [Examples.salt_g; Examples.pepper].
Proof.
  repeat split. discriminate.
Qed.

End FollowAndIngredientClaims.

(** ** More on the shopping list *)

Section ShoppingListMore.
Import Models.

Variable order_by : list ValuesRow -> list ValuesRow.
Hypothesis order_by_ok : OrderByName order_by.

Lemma sumZ_total_add_to_group (ing : Ingredient) (amt : Z) (groups : list ValuesRow) :
  sumZ (map total_amount (add_to_group ing amt groups))
  = (sumZ (map total_amount groups) + amt)%Z.
Proof.
  induction groups as [|g rest IH]; simpl; [lia|].
  destruct (ingredient_eqb (row_key g) ing); simpl; [lia|rewrite IH; lia].
Qed.

Lemma sumZ_total_values_annotate_sum (lines : list RecipeIngredient) :
  sumZ (map total_amount (values_annotate_sum lines)) = sumZ (map amount lines).
Proof.
  unfold values_annotate_sum.
  assert (H : forall groups,
             sumZ (map total_amount
                       (fold_left (fun gs line =>
                                     add_to_group (ingredient line) (amount line) gs)
                                  lines groups))
             = (sumZ (map total_amount groups) + sumZ (map amount lines))%Z).
  { induction lines as [|l ls IH]; intros groups; simpl; [lia|].
    rewrite IH, sumZ_total_add_to_group. lia. }
  now rewrite H.
Qed.

Lemma sumZ_Permutation (l l' : list Z) : Permutation l l' -> sumZ l = sumZ l'.
Proof. induction 1; simpl; lia. Qed.

Lemma group_total_Permutation (k : Ingredient) (rows rows' : list RecipeIngredient) :
  Permutation rows rows' -> group_total k rows = group_total k rows'.
Proof.
  induction 1 as [|x l l' _ IH|x y l|l l' l'' _ IH1 _ IH2];
    rewrite ?group_total_cons; lia.
Qed.

Lemma sumZ_positive {A : Type} (f : A -> Z) (l : list A) :
  l <> [] -> (forall x, In x l -> (0 < f x)%Z) -> (0 < sumZ (map f l))%Z.
Proof.
  induction l as [|a l IH]; intros Hne Hpos; [contradiction|].
  simpl. pose proof (Hpos a (or_introl eq_refl)).
  destruct l as [|b l']; [simpl; lia|].
  assert (0 < sumZ (map f (b :: l')))%Z; [|lia].
  apply IH; [discriminate|]. intros x Hx. apply Hpos. now right.
Qed.

(** Who is in the list: the entries of the pairs met among the joined
    lines, each with the sum of its pair. *)
Lemma ingredients_list_member (user : N) (carts : list ShoppingCart)
    (lines : list RecipeIngredient) (item : Item.t) :
  In item (ingredients_list order_by user carts lines) <->
  (exists l, In l (filter_user_cart user carts lines) /\ ingredient l = item_key item)
  /\ Item.amount item = group_total (item_key item) (filter_user_cart user carts lines).
Proof.
  destruct (values_annotate_sum_spec (filter_user_cart user carts lines))
    as (Hnd & Hsum & Hcov).
  split.
  - intros Hin. split; [|now apply (ingredients_list_amount order_by order_by_ok)].
    apply (ingredients_list_In order_by order_by_ok) in Hin as (g & Hg & ->).
    now destruct (Hsum g Hg) as [_ Hl].
  - intros [(l & Hl & Hk) Hamt].
    destruct (Hcov l Hl) as (g & Hg & Hkg).
    apply (ingredients_list_In order_by order_by_ok). exists g. split; [assumption|].
    destruct (Hsum g Hg) as [Ht _].
    destruct item as [n a u], g as [gn gu gt]. unfold to_item, item_key, row_key in *.
    simpl in *. rewrite Hk in Hkg. injection Hkg as -> ->. now rewrite Hamt, Ht.
Qed.

Lemma ingredients_list_NoDup (user : N) (carts : list ShoppingCart)
    (lines : list RecipeIngredient) :
  NoDup (ingredients_list order_by user carts lines).
Proof.
  apply (NoDup_map_inv item_key).
  apply (Permutation_NoDup (Permutation_sym (ingredients_list_keys order_by order_by_ok user carts lines))).
  now destruct (values_annotate_sum_spec (filter_user_cart user carts lines)).
Qed.

Lemma map_const_length {A B : Type} (b : B) (l l' : list A) :
  List.length l = List.length l' -> map (fun _ => b) l = map (fun _ => b) l'.
Proof.
  revert l'. induction l as [|a l IH]; intros [|a' l'] H; try discriminate;
    [reflexivity|]. simpl. f_equal. apply IH. now injection H.
Qed.

Lemma filter_Permutation {A : Type} (p : A -> bool) (l l' : list A) :
  Permutation l l' -> Permutation (filter p l) (filter p l').
Proof.
  induction 1 as [|x l l' _ IH|x y l|l l' l'' _ IH1 _ IH2]; simpl.
  - constructor.
  - destruct (p x); [now constructor|assumption].
  - destruct (p x), (p y); try reflexivity. apply perm_swap.
  - now transitivity (filter p l').
Qed.

Lemma filter_user_cart_carts_Permutation (user : N) (carts carts' : list ShoppingCart)
    (lines : list RecipeIngredient) :
  Permutation carts carts' ->
  filter_user_cart user carts lines = filter_user_cart user carts' lines.
Proof.
  intros Hp. unfold filter_user_cart.
  induction lines as [|l ls IH]; simpl; [reflexivity|].
  rewrite IH. f_equal. apply map_const_length, Permutation_length.
  now apply filter_Permutation.
Qed.

Lemma filter_user_cart_lines_Permutation (user : N) (carts : list ShoppingCart)
    (lines lines' : list RecipeIngredient) :
  Permutation lines lines' ->
  Permutation (filter_user_cart user carts lines) (filter_user_cart user carts lines').
Proof.
  intros Hp. unfold filter_user_cart.
  induction Hp as [|x l l' _ IH|x y l|l l' l'' _ IH1 _ IH2]; simpl.
  - constructor.
  - now apply Permutation_app_head.
  - rewrite !app_assoc. apply Permutation_app_tail, Permutation_app_comm.
  - now transitivity
      (flat_map (fun line => map (fun _ => line) (filter (in_cart_of user line) carts)) l').
Qed.

Lemma filter_filter_implied {A : Type} (p q : A -> bool) (l : list A) :
  (forall x, p x = true -> q x = true) -> filter p (filter q l) = filter p l.
Proof.
  intros H. induction l as [|a l IH]; simpl; [reflexivity|].
  destruct (q a) eqn:Hq; simpl.
  - now rewrite IH.
  - destruct (p a) eqn:Hp; [|assumption].
    apply H in Hp. congruence.
Qed.

Lemma not_in_cart_no_copies (user : N) (carts : list ShoppingCart) (l : RecipeIngredient) :
  existsb (N.eqb (recipe l)) (cart_recipes user carts) = false ->
  filter (in_cart_of user l) carts = [].
Proof.
  unfold cart_recipes, in_cart_of.
  induction carts as [|c cs IH]; simpl; [reflexivity|].
  destruct (cart_user c =? user)%N; simpl; [|assumption].
  rewrite (N.eqb_sym (recipe l)).
  destruct (cart_recipe c =? recipe l)%N; simpl; [discriminate|assumption].
Qed.

End ShoppingListMore.

(** ** Reading back what the writer wrote *)

Lemma undouble_double_quotes (field : string) :
  undouble (Csv.double_quotes field ++ String Csv.quotechar EmptyString) = field.
Proof.
  induction field as [|c rest IH]; [reflexivity|].
  simpl. destruct (Ascii.eqb_spec c Csv.quotechar) as [->|Hne].
  - simpl. now rewrite IH.
  - simpl. apply Ascii.eqb_neq in Hne. now rewrite Hne, IH.
Qed.

Lemma read_field_field_text (field : string) :
  read_field (Csv.field_text field) = field.
Proof.
  rewrite CsvFacts.field_text_spec.
  destruct (Csv.plain field) eqn:Hp.
  - destruct field as [|c rest]; [reflexivity|].
    simpl in Hp |- *. apply andb_prop in Hp as [Hc _].
    unfold Csv.needs_quotes in Hc.
    destruct (Ascii.eqb c Csv.quotechar); [|reflexivity].
    now rewrite orb_true_r in Hc.
  - unfold Csv.quoted_field, DQUOTE. simpl. apply undouble_double_quotes.
Qed.

(** ** Cutting a data URL *)

Lemma contains_cons_false (needle : string) (c : ascii) (s : string) :
  contains needle (String c s) = false ->
  String.prefix needle (String c s) = false /\ contains needle s = false.
Proof. simpl contains. intros H. now apply orb_false_elim in H. Qed.

Lemma prefix_head_mismatch (x c : ascii) (s1 s2 : string) :
  x <> c -> String.prefix (String x s1) (String c s2) = false.
Proof.
  intros Hne.
  change (String.prefix (String x s1) (String c s2))
    with (if ascii_dec x c then String.prefix s1 s2 else false).
  now destruct (ascii_dec x c).
Qed.

Lemma split_from_no_semicolon (a r current : string) :
  contains ";" a = false ->
  split_from ";base64," (a ++ r) 0 current = split_from ";base64," r 0 (current ++ a).
Proof.
  revert current. induction a as [|c a IH]; intros current Ha.
  - simpl. now rewrite CsvFacts.append_nil_r.
  - rewrite CsvFacts.contains_char in Ha. apply orb_false_elim in Ha as [Hc Ha].
    cbn [append split_from].
    assert (Hp : String.prefix ";base64," (String c (a ++ r)) = false).
    { apply prefix_head_mismatch. now apply Ascii.eqb_neq. }
    rewrite Hp, (IH _ Ha), CsvFacts.append_assoc. reflexivity.
Qed.

Lemma split_from_no_separator (sep b current : string) :
  contains sep b = false -> split_from sep b 0 current = [current ++ b].
Proof.
  revert current. induction b as [|c b IH]; intros current Hb.
  - simpl. now rewrite CsvFacts.append_nil_r.
  - apply contains_cons_false in Hb as [Hp Hb].
    cbn [split_from]. rewrite Hp, (IH _ Hb), CsvFacts.append_assoc. reflexivity.
Qed.

Lemma split_from_at_separator (b current : string) :
  split_from ";base64," (";base64," ++ b) 0 current
  = current :: split_from ";base64," b 0 EmptyString.
Proof. destruct b; reflexivity. Qed.

Lemma split_data_url (format imgstr : string) :
  contains ";" format = false ->
  contains ";base64," imgstr = false ->
  split ";base64," (format ++ ";base64," ++ imgstr) = [format; imgstr].
Proof.
  intros Hf Hi. unfold split.
  rewrite (split_from_no_semicolon format _ _ Hf), split_from_at_separator.
  now rewrite (split_from_no_separator _ imgstr _ Hi).
Qed.

(** ** Further properties of the shopping list *)

Section ShoppingListProperties.
Import Models.

(** The amounts of the list add up to the amounts of the joined lines:
    grouping loses nothing and counts nothing twice. *)
Theorem aggregation_conserves_total
    (order_by : list ValuesRow -> list ValuesRow) (order_by_ok : OrderByName order_by)
    (user : N) (carts : list ShoppingCart) (lines : list RecipeIngredient) :
  sumZ (map Item.amount (ingredients_list order_by user carts lines))
  = sumZ (map amount (filter_user_cart user carts lines)).
Proof.
  unfold ingredients_list, ingredients. rewrite map_map.
  change (fun x => Item.amount (to_item x)) with total_amount.
  rewrite (sumZ_Permutation _ _
             (Permutation_map total_amount (order_by_permutation _ order_by_ok _))).
  apply sumZ_total_values_annotate_sum.
Qed.

Lemma aggregation_conserves_total_witness :
  sumZ (map Item.amount
            (ingredients_list order_by_name_unit 5 Examples.carts Examples.two_unit_lines))
  = 501%Z.
Proof.
  rewrite (aggregation_conserves_total order_by_name_unit order_by_name_unit_ok).
  reflexivity.
Defined.

(** When every line has a positive amount, so has every entry. *)
Theorem aggregated_amounts_positive
    (order_by : list ValuesRow -> list ValuesRow) (order_by_ok : OrderByName order_by)
    (user : N) (carts : list ShoppingCart) (lines : list RecipeIngredient)
    (item : Item.t) :
  (forall l, In l lines -> (0 < amount l)%Z) ->
  In item (ingredients_list order_by user carts lines) ->
  (0 < Item.amount item)%Z.
Proof.
  intros Hpos Hin.
  apply (ingredients_list_member order_by order_by_ok) in Hin as [(l & Hl & Hk) ->].
  unfold group_total. apply sumZ_positive.
  - intros Hnil.
    assert (Hf : In l (filter (fun l0 => ingredient_eqb (ingredient l0) (item_key item))
                              (filter_user_cart user carts lines))).
    { apply filter_In. split; [assumption|now apply ingredient_eqb_eq]. }
    now rewrite Hnil in Hf.
  - intros x Hx. apply filter_In in Hx as [Hx _].
    apply filter_user_cart_In in Hx as [Hx _]. now apply Hpos.
Qed.

Lemma aggregated_amounts_positive_witness :
  (0 < Item.amount Examples.salt_item)%Z.
Proof.
  apply (aggregated_amounts_positive order_by_name order_by_name_ok
           5 Examples.carts Examples.salt_lines).
  - intros l [<-|[<-|[<-|[]]]]; reflexivity.
  - simpl. left. reflexivity.
Defined.

(** The entries depend neither on the order in which the two tables are
    scanned nor on the engine's ordering step: another scan order and
    another engine give the same entries, at most in another order. *)
Theorem aggregation_ignores_scan_order
    (order_by order_by' : list ValuesRow -> list ValuesRow)
    (order_by_ok : OrderByName order_by) (order_by_ok' : OrderByName order_by')
    (user : N) (carts carts' : list ShoppingCart)
    (lines lines' : list RecipeIngredient) :
  Permutation carts carts' ->
  Permutation lines lines' ->
  Permutation (ingredients_list order_by user carts lines)
              (ingredients_list order_by' user carts' lines').
Proof.
  intros Hc Hl.
  apply NoDup_Permutation; try (apply ingredients_list_NoDup; assumption).
  assert (Hrows : Permutation (filter_user_cart user carts lines)
                              (filter_user_cart user carts' lines')).
  { rewrite (filter_user_cart_carts_Permutation user carts carts' lines Hc).
    now apply filter_user_cart_lines_Permutation. }
  intros item.
  rewrite (ingredients_list_member order_by order_by_ok),
          (ingredients_list_member order_by' order_by_ok').
  rewrite (group_total_Permutation _ _ _ Hrows).
  split; intros [(l & Hin & Hk) Hamt]; (split; [|assumption]); exists l;
    (split; [|assumption]).
  - now apply (Permutation_in _ Hrows).
  - now apply (Permutation_in _ (Permutation_sym Hrows)).
Qed.

Lemma aggregation_ignores_scan_order_witness :
  Permutation
    (ingredients_list order_by_name 5 Examples.carts Examples.two_unit_lines)
    (ingredients_list order_by_name_unit 5 (rev Examples.carts)
                      (rev Examples.two_unit_lines)).
Proof.
  apply aggregation_ignores_scan_order;
    [exact order_by_name_ok|exact order_by_name_unit_ok| |]; apply Permutation_rev.
Defined.

(** The cart rows of other users have no part in a user's list. *)
Theorem aggregation_ignores_other_users
    (order_by : list ValuesRow -> list ValuesRow)
    (user : N) (carts : list ShoppingCart) (lines : list RecipeIngredient) :
  ingredients_list order_by user carts lines
  = ingredients_list order_by user (filter (fun c => (cart_user c =? user)%N) carts) lines.
Proof.
  unfold ingredients_list, ingredients. do 3 f_equal.
  unfold filter_user_cart. apply flat_map_ext. intros l. f_equal.
  symmetry. apply filter_filter_implied.
  intros c Hc. unfold in_cart_of in Hc. now apply andb_prop in Hc.
Qed.

(** The lines of recipes that are not in the user's cart have no part in
    the list. *)
Theorem aggregation_ignores_recipes_outside_cart
    (order_by : list ValuesRow -> list ValuesRow)
    (user : N) (carts : list ShoppingCart) (lines : list RecipeIngredient) :
  ingredients_list order_by user carts lines
  = ingredients_list order_by user carts
      (filter (fun l => existsb (N.eqb (recipe l)) (cart_recipes user carts)) lines).
Proof.
  unfold ingredients_list, ingredients. do 3 f_equal.
  unfold filter_user_cart.
  induction lines as [|l ls IH]; simpl; [reflexivity|].
  destruct (existsb (N.eqb (recipe l)) (cart_recipes user carts)) eqn:Hex; simpl.
  - now rewrite IH.
  - now rewrite (not_in_cart_no_copies user carts l Hex).
Qed.



(** What the writer writes for a field reads back as the field, so two
    fields are never written alike. *)
Theorem csv_field_reads_back :
  (forall field : string, read_field (Csv.field_text field) = field)
  /\ (forall a b : string, Csv.field_text a = Csv.field_text b -> a = b).
Proof.
  split; [exact read_field_field_text|].
  intros a b H.
  rewrite <- (read_field_field_text a), <- (read_field_field_text b).
  now rewrite H.
Qed.

(** A field without comma, quote, carriage return and line feed is written
    as it is; a field holding a carriage return or a line feed goes between
    quotes like one holding a comma. *)
Theorem csv_plain_and_line_break_fields (field : string) :
  (Csv.plain field = true -> Csv.field_text field = field)
  /\ (contains CR field = true \/ contains LF field = true ->
      Csv.field_text field = Csv.quoted_field field).
Proof.
  rewrite CsvFacts.field_text_spec. split.
  - now intros ->.
  - intros H. rewrite CsvFacts.plain_contains.
    destruct H as [-> | ->]; simpl; now rewrite ?orb_true_r.
Qed.

Lemma csv_plain_and_line_break_fields_witness :
  Csv.field_text "Salt" = "Salt"
  /\ Csv.field_text ("two" ++ LF ++ "lines") = Csv.quoted_field ("two" ++ LF ++ "lines").
Proof.
  split.
  - apply (proj1 (csv_plain_and_line_break_fields "Salt")). reflexivity.
  - apply (proj2 (csv_plain_and_line_break_fields ("two" ++ LF ++ "lines"))).
    right. reflexivity.
Defined.

End ShoppingListProperties.

(** ** Further properties of unfollowing *)

Section FollowProperties.
Import Models.

Lemma pk_determines_row (follows : list Follow) (a b : Follow) :
  NoDup (map pk follows) -> In a follows -> In b follows -> pk a = pk b -> a = b.
Proof.
  induction follows as [|h t IH]; intros Hnd Ha Hb Hpk; [contradiction|].
  simpl in Hnd. inversion Hnd as [|? ? Hnotin Hnd']; subst.
  destruct Ha as [->|Ha], Hb as [->|Hb]; try reflexivity.
  - exfalso. apply Hnotin. rewrite Hpk. now apply in_map.
  - exfalso. apply Hnotin. rewrite <- Hpk. now apply in_map.
  - now apply IH.
Qed.

Lemma is_follow_iff (user id : N) (f : Follow) :
  is_follow user id f = true <-> follower f = user /\ following f = id.
Proof.
  unfold is_follow. now rewrite andb_true_iff, !N.eqb_eq.
Qed.

Lemma find_head_of_filter {A : Type} (p : A -> bool) (l : list A) (x : A) (rest : list A) :
  filter p l = x :: rest -> find p l = Some x.
Proof.
  induction l as [|a l IH]; simpl; [discriminate|].
  destruct (p a); [now intros [= -> _]|assumption].
Qed.

(** Unfollowing one user leaves every row about another pair of users in
    the table, and adds none. *)
Theorem manage_follow_delete_keeps_other_rows
    (users : list N) (follows : list Follow) (user id : N) (f : Follow) :
  NoDup (map pk follows) ->
  ~ (follower f = user /\ following f = id) ->
  (In f follows <-> In f (snd (manage_follow_delete users follows user id))).
Proof.
  intros Hnd Hother. unfold manage_follow_delete.
  destruct (existsb (N.eqb id) users); [|reflexivity].
  destruct (find (is_follow user id) follows) as [inst|] eqn:Hf; [|reflexivity].
  simpl. rewrite filter_In. apply find_some in Hf as [Hinst Hm].
  apply is_follow_iff in Hm.
  split; [|now intros [H _]].
  intros Hin. split; [assumption|].
  apply negb_true_iff, N.eqb_neq. intros Hpk.
  apply Hother. now rewrite (pk_determines_row follows f inst Hnd Hin Hinst Hpk).
Qed.

Lemma manage_follow_delete_keeps_other_rows_witness :
  In {| pk := 3; follower := 6; following := 7 |}
     (snd (manage_follow_delete Examples.users Examples.follows 5 7)).
Proof.
  apply (manage_follow_delete_keeps_other_rows Examples.users Examples.follows 5 7).
  - simpl. repeat constructor; simpl; intuition discriminate.
  - simpl. intros [H _]. discriminate.
  - simpl. auto.
Defined.

(** Where one row links the two users, unfollowing answers 204 and a second
    unfollowing answers 400 and changes nothing more. *)
Theorem manage_follow_delete_twice
    (users : list N) (follows : list Follow) (user id : N) (f : Follow) :
  NoDup (map pk follows) ->
  In id users ->
  filter (is_follow user id) follows = [f] ->
  fst (manage_follow_delete users follows user id) = empty_response HTTP_204_NO_CONTENT
  /\ manage_follow_delete users (snd (manage_follow_delete users follows user id)) user id
     = (detail_response HTTP_400_BAD_REQUEST "Вы не подписаны на этого пользователя.",
        snd (manage_follow_delete users follows user id)).
Proof.
  intros Hnd Hid Hone. unfold manage_follow_delete.
  assert (Hex : existsb (N.eqb id) users = true).
  { apply existsb_exists. exists id. split; [assumption|apply N.eqb_refl]. }
  rewrite Hex, (find_head_of_filter _ _ _ _ Hone). simpl.
  split; [reflexivity|].
  destruct (find (is_follow user id) (filter (fun g => negb (pk g =? pk f)%N) follows))
    as [g|] eqn:Hg; [|reflexivity].
  exfalso. apply find_some in Hg as [Hin Hm].
  apply filter_In in Hin as [Hin Hpk].
  assert (Hgf : In g (filter (is_follow user id) follows)) by (apply filter_In; auto).
  rewrite Hone in Hgf. destruct Hgf as [->|[]].
  now rewrite N.eqb_refl in Hpk.
Qed.

Lemma manage_follow_delete_twice_witness :
  manage_follow_delete Examples.users
    (snd (manage_follow_delete Examples.users Examples.follows 5 7)) 5 7
  = (detail_response HTTP_400_BAD_REQUEST "Вы не подписаны на этого пользователя.",
     snd (manage_follow_delete Examples.users Examples.follows 5 7)).
Proof.
  apply (proj2 (manage_follow_delete_twice Examples.users Examples.follows 5 7
                  {| pk := 2; follower := 5; following := 7 |}
                  ltac:(simpl; repeat constructor; simpl; intuition discriminate)
                  ltac:(simpl; auto)
                  eq_refl)).
Defined.

End FollowProperties.

(** ** The avatar handler *)

Section AvatarProperties.

Variable b64decode : string -> option string.
Variable stored_name : string -> option string.
Variable avatar_url_of : string -> string.

Lemma file_content_removed (name : string) (files : list (string * string)) :
  file_content name (filter (fun f => negb (String.eqb (fst f) name)) files) = None.
Proof.
  unfold file_content.
  destruct (find _ (filter _ files)) as [f|] eqn:Hf; [|reflexivity].
  apply find_some in Hf as [Hin Hname]. apply filter_In in Hin as [_ Hneg].
  now rewrite Hname in Hneg.
Qed.

Lemma file_content_kept (name other : string) (files : list (string * string)) :
  other <> name ->
  file_content other (filter (fun f => negb (String.eqb (fst f) name)) files)
  = file_content other files.
Proof.
  intros Hne. unfold file_content. f_equal.
  induction files as [|f files IH]; simpl; [reflexivity|].
  destruct (String.eqb_spec (fst f) name) as [Hf|Hf]; simpl.
  - destruct (String.eqb_spec (fst f) other) as [Ho|_]; [congruence|assumption].
  - destruct (String.eqb (fst f) other); [reflexivity|assumption].
Qed.

Lemma remove_avatar_clears (st : AvatarState) :
  avatar (remove_avatar st) = None
  /\ forall name, avatar st = Some name ->
                  file_content name (storage (remove_avatar st)) = None.
Proof.
  unfold remove_avatar. destruct (avatar st) as [old|] eqn:Ha; simpl.
  - split; [reflexivity|]. intros name [= <-]. apply file_content_removed.
  - split; [assumption|discriminate].
Qed.

(** A data URL whose media type holds no semicolon, whose payload decodes
    and whose file the storage accepts is saved: the answer is 200 with the
    new file's address, the field names the new file, and the storage holds
    the decoded bytes under that name.  The file is asked for under the
    drawn uuid and the part of the media type after its last slash. *)
Theorem handle_avatar_saves_data_url
    (format imgstr content uuid name : string) (st : AvatarState) :
  contains ";" format = false ->
  contains ";base64," imgstr = false ->
  b64decode imgstr = Some content ->
  stored_name (uuid ++ "." ++ last (split "/" format) EmptyString) = Some name ->
  fst (handle_avatar b64decode stored_name avatar_url_of PUT
         (Some (format ++ ";base64," ++ imgstr)) uuid st)
  = AvatarSaved (avatar_url_of name)
  /\ avatar (snd (handle_avatar b64decode stored_name avatar_url_of PUT
                    (Some (format ++ ";base64," ++ imgstr)) uuid st))
     = Some name
  /\ file_content name
       (storage (snd (handle_avatar b64decode stored_name avatar_url_of PUT
                        (Some (format ++ ";base64," ++ imgstr)) uuid st)))
     = Some content.
Proof.
  intros Hf Hi Hdec Hsave.
  unfold handle_avatar.
  rewrite (split_data_url format imgstr Hf Hi), Hdec, Hsave.
  destruct (format ++ ";base64," ++ imgstr) as [|c rest] eqn:Hdata.
  - destruct format; discriminate.
  - simpl. unfold file_content. simpl. rewrite String.eqb_refl. auto.
Qed.

(** When the storage refuses the file, the same upload is answered 400 and
    leaves the user without avatar. *)
Lemma handle_avatar_save_refused
    (format imgstr content uuid : string) (st : AvatarState) :
  contains ";" format = false ->
  contains ";base64," imgstr = false ->
  b64decode imgstr = Some content ->
  stored_name (uuid ++ "." ++ last (split "/" format) EmptyString) = None ->
  handle_avatar b64decode stored_name avatar_url_of PUT
    (Some (format ++ ";base64," ++ imgstr)) uuid st
  = (AvatarError SaveFailure, remove_avatar st).
Proof.
  intros Hf Hi Hdec Hsave.
  unfold handle_avatar.
  rewrite (split_data_url format imgstr Hf Hi), Hdec, Hsave.
  destruct (format ++ ";base64," ++ imgstr) as [|c rest] eqn:Hdata; [|reflexivity].
  destruct format; discriminate.
Qed.

(** An upload that is answered 400 although it carried data has already
    removed the previous avatar: the field is empty and the old file is
    out of the storage. *)
Theorem handle_avatar_rejected_upload_drops_old
    (data uuid old : string) (st : AvatarState) :
  data <> "" ->
  avatar st = Some old ->
  avatar_status (fst (handle_avatar b64decode stored_name avatar_url_of PUT
                        (Some data) uuid st))
  = HTTP_400_BAD_REQUEST ->
  avatar (snd (handle_avatar b64decode stored_name avatar_url_of PUT (Some data) uuid st))
  = None
  /\ file_content old
       (storage (snd (handle_avatar b64decode stored_name avatar_url_of PUT
                        (Some data) uuid st)))
     = None.
Proof.
  intros Hdata Hold. unfold handle_avatar.
  destruct data as [|c rest]; [contradiction|].
  destruct (remove_avatar_clears st) as [Hnone Hgone].
  destruct (split ";base64," (String c rest)) as [|format [|imgstr [|x xs]]];
    try (intros _; split; [exact Hnone|exact (Hgone old Hold)]).
  destruct (b64decode imgstr);
    [|intros _; split; [exact Hnone|exact (Hgone old Hold)]].
  destruct (stored_name _); [discriminate|].
  intros _. split; [exact Hnone|exact (Hgone old Hold)].
Qed.

(** Deleting: without an avatar the answer is 404 and nothing changes; with
    one the answer is 204, the field is emptied, the file leaves the
    storage, and deleting again answers 404. *)
Theorem handle_avatar_delete (uuid : string) (st : AvatarState) :
  (avatar st = None ->
   handle_avatar b64decode stored_name avatar_url_of DELETE None uuid st
   = (AvatarMissing, st))
  /\ (forall name, avatar st = Some name ->
        fst (handle_avatar b64decode stored_name avatar_url_of DELETE None uuid st)
        = AvatarDeleted
        /\ avatar (snd (handle_avatar b64decode stored_name avatar_url_of
                          DELETE None uuid st))
           = None
        /\ file_content name
             (storage (snd (handle_avatar b64decode stored_name avatar_url_of
                              DELETE None uuid st)))
           = None
        /\ handle_avatar b64decode stored_name avatar_url_of DELETE None uuid
             (snd (handle_avatar b64decode stored_name avatar_url_of DELETE None uuid st))
           = (AvatarMissing,
              snd (handle_avatar b64decode stored_name avatar_url_of DELETE None uuid st))).
Proof.
  unfold handle_avatar. split.
  - now intros ->.
  - intros name Hname. rewrite Hname. simpl.
    destruct (remove_avatar_clears st) as [Hnone Hgone].
    repeat split; [exact Hnone|exact (Hgone name Hname)|now rewrite Hnone].
Qed.

(** Whatever the request, the handler leaves the field naming a stored
    file or empty, given it found it so. *)
Theorem handle_avatar_keeps_consistent
    (method : Method) (avatar_data : option string) (uuid : string) (st : AvatarState) :
  avatar_consistent st ->
  avatar_consistent
    (snd (handle_avatar b64decode stored_name avatar_url_of method avatar_data uuid st)).
Proof.
  intros Hc. unfold handle_avatar.
  assert (Hrm : avatar_consistent (remove_avatar st)).
  { unfold avatar_consistent. now rewrite (proj1 (remove_avatar_clears st)). }
  destruct method.
  - destruct avatar_data as [[|c rest]|]; try assumption.
    destruct (split ";base64," (String c rest)) as [|format [|imgstr [|x xs]]];
      try assumption.
    destruct (b64decode imgstr); [|assumption].
    destruct (stored_name _); [|assumption].
    unfold avatar_consistent, file_content. simpl. rewrite String.eqb_refl. discriminate.
  - destruct (avatar st); assumption.
Qed.

(** The handler touches no file but the user's old avatar and the file it
    saves. *)
Theorem handle_avatar_keeps_other_files
    (method : Method) (avatar_data : option string) (uuid : string) (st : AvatarState)
    (other : string) :
  avatar st <> Some other ->
  (forall requested, stored_name requested <> Some other) ->
  file_content other
    (storage (snd (handle_avatar b64decode stored_name avatar_url_of
                     method avatar_data uuid st)))
  = file_content other (storage st).
Proof.
  intros Hold Hnew. unfold handle_avatar.
  assert (Hrm : file_content other (storage (remove_avatar st))
                = file_content other (storage st)).
  { unfold remove_avatar. destruct (avatar st) as [old|]; [|reflexivity].
    simpl. apply file_content_kept. congruence. }
  destruct method.
  - destruct avatar_data as [[|c rest]|]; try reflexivity.
    destruct (split ";base64," (String c rest)) as [|format [|imgstr [|x xs]]];
      try assumption.
    destruct (b64decode imgstr); [|assumption].
    destruct (stored_name _) as [name|] eqn:Hname; [|assumption].
    simpl. rewrite <- Hrm. unfold file_content. simpl.
    destruct (String.eqb_spec name other) as [E|_]; [|reflexivity].
    subst name. now apply Hnew in Hname.
  - destruct (avatar st); [assumption|reflexivity].
Qed.

End AvatarProperties.

Lemma handle_avatar_saves_data_url_witness :
  fst (handle_avatar (fun _ => Some "bytes") (fun n => Some ("users/" ++ n))
         (fun n => "http://host/media/" ++ n)
         PUT (Some ("data:image/png" ++ ";base64," ++ "Ynl0ZXM=")) "1f0c"
         {| avatar := None; storage := [] |})
  = AvatarSaved ("http://host/media/" ++ "users/1f0c.png")
  /\ avatar (snd (handle_avatar (fun _ => Some "bytes") (fun n => Some ("users/" ++ n))
                    (fun n => "http://host/media/" ++ n)
                    PUT (Some ("data:image/png" ++ ";base64," ++ "Ynl0ZXM=")) "1f0c"
                    {| avatar := None; storage := [] |}))
     = Some "users/1f0c.png"
  /\ file_content "users/1f0c.png"
       (storage (snd (handle_avatar (fun _ => Some "bytes")
                        (fun n => Some ("users/" ++ n))
                        (fun n => "http://host/media/" ++ n)
                        PUT (Some ("data:image/png" ++ ";base64," ++ "Ynl0ZXM=")) "1f0c"
                        {| avatar := None; storage := [] |})))
     = Some "bytes".
Proof.
  apply (handle_avatar_saves_data_url (fun _ => Some "bytes")
           (fun n => Some ("users/" ++ n)) (fun n => "http://host/media/" ++ n)
           "data:image/png" "Ynl0ZXM=" "bytes" "1f0c" "users/1f0c.png");
    reflexivity.
Defined.

Lemma handle_avatar_rejected_upload_drops_old_witness :
  avatar (snd (handle_avatar (fun _ => Some "bytes") (fun n => Some n) (fun n => n)
                 PUT (Some "not a data url") "1f0c"
                 {| avatar := Some "old.png"; storage := [("old.png", "x")] |}))
  = None
  /\ file_content "old.png"
       (storage (snd (handle_avatar (fun _ => Some "bytes") (fun n => Some n) (fun n => n)
                        PUT (Some "not a data url") "1f0c"
                        {| avatar := Some "old.png"; storage := [("old.png", "x")] |})))
     = None.
Proof.
  apply (handle_avatar_rejected_upload_drops_old (fun _ => Some "bytes")
           (fun n => Some n) (fun n => n) "not a data url" "1f0c" "old.png");
    [discriminate|reflexivity|reflexivity].
Defined.

Lemma handle_avatar_delete_witness :
  handle_avatar (fun _ => None) (fun n => Some n) (fun n => n) DELETE None "1f0c"
    {| avatar := Some "old.png"; storage := [("old.png", "x"); ("other.png", "y")] |}
  = (AvatarDeleted, {| avatar := None; storage := [("other.png", "y")] |})
  /\ fst (handle_avatar (fun _ => None) (fun n => Some n) (fun n => n) DELETE None "1f0c"
            {| avatar := None; storage := [("other.png", "y")] |})
     = AvatarMissing.
Proof.
  split; [reflexivity|].
  rewrite (proj1 (handle_avatar_delete (fun _ => None) (fun n => Some n) (fun n => n)
                    "1f0c" {| avatar := None; storage := [("other.png", "y")] |}) eq_refl).
  reflexivity.
Defined.

Lemma handle_avatar_keeps_consistent_witness :
  avatar_consistent
    (snd (handle_avatar (fun _ => Some "bytes") (fun n => Some n) (fun n => n)
            PUT (Some "data:image/png;base64,Ynl0ZXM=") "1f0c"
            {| avatar := Some "old.png"; storage := [("old.png", "x")] |})).
Proof.
  apply handle_avatar_keeps_consistent.
  unfold avatar_consistent, file_content. simpl. discriminate.
Defined.

Lemma handle_avatar_keeps_other_files_witness :
  file_content "other.png"
    (storage (snd (handle_avatar (fun _ => Some "bytes") (fun n => Some ("users/" ++ n))
                     (fun n => n) PUT (Some "data:image/png;base64,Ynl0ZXM=") "1f0c"
                     {| avatar := Some "old.png";
                        storage := [("old.png", "x"); ("other.png", "y")] |})))
  = Some "y".
Proof.
  rewrite (handle_avatar_keeps_other_files (fun _ => Some "bytes")
             (fun n => Some ("users/" ++ n))
             (fun n => n) PUT (Some "data:image/png;base64,Ynl0ZXM=") "1f0c"
             {| avatar := Some "old.png";
                storage := [("old.png", "x"); ("other.png", "y")] |} "other.png").
  - reflexivity.
  - discriminate.
  - intros requested. discriminate.
Defined.

(** ** The short link, continued *)

Lemma append_cancel_l (a b c : string) : a ++ b = a ++ c -> b = c.
Proof.
  induction a as [|x a IH]; simpl; [auto|].
  intros [= H]. now apply IH.
Qed.

(** A key that is no recipe's gets no link, and two stored recipes never
    get the same link. *)
Theorem share_links_distinct (base_uri : string) (recipe_ids : list N) (pk pk' : N) :
  (~ In pk recipe_ids -> generate_share_link base_uri recipe_ids pk = ShareNotFound)
  /\ (In pk recipe_ids -> In pk' recipe_ids ->
      generate_share_link base_uri recipe_ids pk
      = generate_share_link base_uri recipe_ids pk' ->
      pk = pk').
Proof.
  unfold generate_share_link. split.
  - intros Hnot.
    destruct (existsb (N.eqb pk) recipe_ids) eqn:Hex; [|reflexivity].
    apply existsb_exists in Hex as (x & Hx & E). apply N.eqb_eq in E. now subst.
  - intros Hin Hin'.
    assert (Hex : forall k, In k recipe_ids -> existsb (N.eqb k) recipe_ids = true).
    { intros k Hk. apply existsb_exists. exists k. split; [assumption|apply N.eqb_refl]. }
    rewrite (Hex pk Hin), (Hex pk' Hin'). intros [= H].
    apply append_cancel_l in H. apply (append_cancel_l "/s/") in H.
    pose proof (Base62Facts.from_base62_to_base62 pk) as Hd.
    rewrite H, Base62Facts.from_base62_to_base62 in Hd. now injection Hd.
Qed.

Lemma share_links_distinct_witness :
  generate_share_link "http://host" [1; 2]%N 7 = ShareNotFound.
Proof.
  apply (proj1 (share_links_distinct "http://host" [1; 2]%N 7 7)).
  simpl. intros [H|[H|[]]]; discriminate.
Defined.
